(** * Blockchain transaction visualizer: aggregation and size-bound trim

    A shallow embedding of the transaction-to-graph engine of the
    repository:

    - [desktop_app.py]: [wei_to_eth] and the threshold-filtering
      [build_graph_from_txlist];
    - [graph/graph_builder.py]: [build_graph_from_txlist] with the
      neighbourhood trim around a focus address.

    Python values are modelled as far as the two functions can observe
    them: the builtins [int()] and [float()] on JSON/CSV scalars, IEEE
    binary64 arithmetic (Rocq's primitive floats), [str.lower], list slices
    and the insertion order of dictionaries, on which networkx's
    [predecessors]/[successors] iteration relies.  Strings are ASCII texts
    ([string] is a sequence of bytes). *)

From Stdlib Require Import ZArith Floats Ascii String.
From stdpp Require Import base list gmap strings pretty.

#[local] Set Warnings "-inexact-float".
#[local] Open Scope Z_scope.

(** ** The Python fragment used by the program *)

Module Py.

(** Exceptions the builtins used here can raise. *)
Inductive exn := TypeError | ValueError | OverflowError | ZeroDivisionError.

(** A computation that returns or raises. *)
Inductive result (A : Type) :=
| Ok (a : A)
| Raise (e : exn).
Arguments Ok {A} a.
Arguments Raise {A} e.

Definition bind {A B} (m : result A) (k : A → result B) : result B :=
  match m with
  | Ok a => k a
  | Raise e => Raise e
  end.

(** Scalars a decoded JSON document or a CSV cell can hold; [PyContainer]
    stands for a list or a dict, on which [int()] and [float()] raise
    [TypeError]. *)
Inductive value :=
| PyNone
| PyBool (b : bool)
| PyInt (n : Z)
| PyFloat (f : float)
| PyStr (s : string)
| PyContainer.

(** *** Characters and strings *)

Definition code (c : ascii) : N := N_of_ascii c.

(** C's [isspace] in the C locale: space, \t, \n, \v, \f, \r. *)
Definition is_space (c : ascii) : bool :=
  ((code c =? 32) || ((9 <=? code c) && (code c <=? 13)))%N.

Definition is_digit (c : ascii) : bool :=
  ((48 <=? code c) && (code c <=? 57))%N.

Definition digit_val (c : ascii) : Z := Z.of_N (code c) - 48.

Definition is_upper (c : ascii) : bool :=
  ((65 <=? code c) && (code c <=? 90))%N.

Definition lower_char (c : ascii) : ascii :=
  if is_upper c then ascii_of_N (code c + 32) else c.

(** [s.lower()] *)
Fixpoint lower (s : string) : string :=
  match s with
  | EmptyString => EmptyString
  | String c s' => String (lower_char c) (lower s')
  end.

Fixpoint lstrip (l : list ascii) : list ascii :=
  match l with
  | c :: l' => if is_space c then lstrip l' else l
  | [] => []
  end.

Definition strip (l : list ascii) : list ascii :=
  rev (lstrip (rev (lstrip l))).

(** The longest prefix of the form [digit (["_"] digit)*], returned
    without its underscores, and the rest of the input. *)
Fixpoint span_digits (l : list ascii) : list ascii * list ascii :=
  match l with
  | c :: l' =>
      if is_digit c then
        match l' with
        | u :: ((d :: _) as l'') =>
            if (code u =? 95)%N then
              if is_digit d then
                let '(ds, r) := span_digits l'' in (c :: ds, r)
              else ([c], l')
            else let '(ds, r) := span_digits l' in (c :: ds, r)
        | _ => let '(ds, r) := span_digits l' in (c :: ds, r)
        end
      else ([], l)
  | [] => ([], [])
  end.

Definition digits_to_Z (ds : list ascii) : Z :=
  fold_left (λ acc d, 10 * acc + digit_val d) ds 0.

(** An optional sign: [true] for ["-"]. *)
Definition split_sign (l : list ascii) : bool * list ascii :=
  match l with
  | c :: l' =>
      if (code c =? 45)%N then (true, l')
      else if (code c =? 43)%N then (false, l')
      else (false, l)
  | [] => (false, [])
  end.

(** *** int() *)

(** [int(s)] for a string, base 10. *)
Definition int_of_string (s : string) : result Z :=
  let '(neg, body) := split_sign (strip (list_ascii_of_string s)) in
  match span_digits body with
  | ((_ :: _) as ds, []) =>
      Ok (if neg then - digits_to_Z ds else digits_to_Z ds)
  | _ => Raise ValueError
  end.

(** [int(f)] for a float: truncation towards zero. *)
Definition int_of_float (f : float) : result Z :=
  match Prim2SF f with
  | S754_nan => Raise ValueError
  | S754_infinity _ => Raise OverflowError
  | S754_zero _ => Ok 0
  | S754_finite s m e =>
      let mag := if 0 <=? e then Z.shiftl (Zpos m) e
                 else Z.shiftr (Zpos m) (- e) in
      Ok (if s then - mag else mag)
  end.

Definition builtin_int (v : value) : result Z :=
  match v with
  | PyNone | PyContainer => Raise TypeError
  | PyBool b => Ok (if b then 1 else 0)
  | PyInt n => Ok n
  | PyFloat f => int_of_float f
  | PyStr s => int_of_string s
  end.

(** *** float() *)

(** Conversion of an integer to binary64, round-half-even;
    [OverflowError] when the result is not finite. *)
Definition float_of_int (n : Z) : result float :=
  match binary_normalize prec emax n 0 false with
  | S754_infinity _ => Raise OverflowError
  | sf => Ok (SF2Prim sf)
  end.

(** The binary64 number nearest to [p / q] (ties to even), signed.  The
    quotient is taken with 66 extra bits and a sticky last bit, so that
    the final rounding sees the exact position of [p / q]. *)
Definition round_ratio (neg : bool) (p q : positive) : float :=
  let sh := Z.max 0 (66 + Z.log2 (Zpos q) - Z.log2 (Zpos p)) in
  let num := Z.shiftl (Zpos p) sh in
  let m := 2 * (num / Zpos q) + (if num mod Zpos q =? 0 then 0 else 1) in
  SF2Prim (binary_normalize prec emax (if neg then - m else m) (- sh - 1) false).

(** The binary64 number nearest to [±m * 10^e10]. *)
Definition float_of_decimal (neg : bool) (m e10 : Z) : float :=
  match m with
  | Zpos p =>
      if 0 <=? e10
      then round_ratio neg (p * Z.to_pos (10 ^ e10)) 1
      else round_ratio neg p (Z.to_pos (10 ^ (- e10)))
  | _ => if neg then (-0)%float else 0%float
  end.

Definition starts_with_e (l : list ascii) : option (list ascii) :=
  match l with
  | c :: l' => if ((code c =? 101) || (code c =? 69))%N then Some l' else None
  | [] => None
  end.

(** [float(s)] for a string: [inf], [infinity] and [nan] in any letter
    case, or a decimal literal with optional fraction and exponent. *)
Definition float_of_string (s : string) : result float :=
  let '(neg, body) := split_sign (strip (list_ascii_of_string s)) in
  let word := lower (string_of_list_ascii body) in
  if bool_decide (word = "inf"%string) || bool_decide (word = "infinity"%string)
  then Ok (if neg then neg_infinity else infinity)
  else if bool_decide (word = "nan"%string) then Ok nan
  else
    let '(ip, r1) := span_digits body in
    let '(fp, r2) :=
      match r1 with
      | c :: r1' => if (code c =? 46)%N then span_digits r1' else ([], r1)
      | [] => ([], [])
      end in
    match ip ++ fp with
    | [] => Raise ValueError
    | mant =>
        let frac := Z.of_nat (length fp) in
        match starts_with_e r2 with
        | Some r3 =>
            let '(eneg, r4) := split_sign r3 in
            match span_digits r4 with
            | ((_ :: _) as ed, []) =>
                let ex := if eneg then - digits_to_Z ed else digits_to_Z ed in
                Ok (float_of_decimal neg (digits_to_Z mant) (ex - frac))
            | _ => Raise ValueError
            end
        | None =>
            match r2 with
            | [] => Ok (float_of_decimal neg (digits_to_Z mant) (- frac))
            | _ => Raise ValueError
            end
        end
    end.

Definition builtin_float (v : value) : result float :=
  match v with
  | PyNone | PyContainer => Raise TypeError
  | PyBool b => Ok (if b then 1 else 0)%float
  | PyInt n => float_of_int n
  | PyFloat f => Ok f
  | PyStr s => float_of_string s
  end.

(** *** Arithmetic *)

(** [x / d] on floats. *)
Definition float_truediv (x d : float) : result float :=
  if (d =? 0)%float then Raise ZeroDivisionError else Ok (x / d)%float.

(** [n / d] for an [int] and a [float]: the integer is converted first. *)
Definition int_truediv_float (n : Z) (d : float) : result float :=
  bind (float_of_int n) (λ x, float_truediv x d).

(** *** Truthiness and slices *)

(** [not s] for a value that is a string or [None]. *)
Definition falsy (o : option string) : bool :=
  match o with
  | None => true
  | Some s => bool_decide (s = ""%string)
  end.

(** The binary64 numbers [x] with [0 <= x]: zeros, positive finite
    numbers and [+infinity]. *)
Definition sf_nonneg (s : spec_float) : bool :=
  match s with
  | S754_zero _ => true
  | S754_finite s _ _ => negb s
  | S754_infinity s => negb s
  | S754_nan => false
  end.

(** [l[:k]]: a negative [k] counts from the end. *)
Definition slice_to {A} (l : list A) (k : Z) : list A :=
  if 0 <=? k then take (Z.to_nat k) l
  else take (Z.to_nat (Z.of_nat (length l) + k)) l.

End Py.

(** ** Dictionaries that remember insertion order

    A Python [dict] iterates over its keys in the order of their first
    insertion; assigning to a key that is present keeps its position. *)

Module Dict.
Abbreviation t K V := (list (K * V)).

Section Dict.
Context {K V : Type} `{EqDecision K}.

(** [d.get(k)] *)
Fixpoint get (d : t K V) (k : K) : option V :=
  match d with
  | [] => None
  | (k', v) :: d' => if decide (k' = k) then Some v else get d' k
  end.

(** [k in d] *)
Definition has (d : t K V) (k : K) : bool :=
  match get d k with Some _ => true | None => false end.

(** [d[k] = v] *)
Fixpoint set (d : t K V) (k : K) (v : V) : t K V :=
  match d with
  | [] => [(k, v)]
  | (k', v') :: d' =>
      if decide (k' = k) then (k', v) :: d' else (k', v') :: set d' k v
  end.

(** [d[k] = f(d[k])] for a key that is present. *)
Fixpoint alter (f : V → V) (d : t K V) (k : K) : t K V :=
  match d with
  | [] => []
  | (k', v') :: d' =>
      if decide (k' = k) then (k', f v') :: d' else (k', v') :: alter f d' k
  end.

(** [list(d)] *)
Definition keys (d : t K V) : list K := d.*1.
End Dict.
End Dict.

(** ** The part of [networkx.DiGraph] the builders use

    networkx stores [_node] (node to attribute dict) and two adjacency
    tables [_succ] and [_pred] whose entries [_succ[u][v]] and
    [_pred[v][u]] are one shared attribute dict per edge.  The model keeps
    one insertion-ordered table of edges keyed by [(u, v)]: iterating
    [_pred[n]] (resp. [_succ[n]]) visits the sources (targets) of the edges
    into (out of) [n] in the order these edges were first added, which is
    their order in the edge table. *)

Module Nx.
Section DiGraph.
Context {N E : Type}.

Record DiGraph := mkDiGraph {
  _node : Dict.t string N;
  _adj : Dict.t (string * string) E;
}.

(** [nx.DiGraph()] *)
Definition empty : DiGraph := {| _node := []; _adj := [] |}.

Definition has_node (G : DiGraph) (n : string) : bool :=
  Dict.has (_node G) n.

Definition number_of_nodes (G : DiGraph) : Z :=
  Z.of_nat (length (_node G)).

(** [G.add_node(n, **attr)], all attributes given. *)
Definition add_node (G : DiGraph) (n : string) (attr : N) : DiGraph :=
  {| _node := Dict.set (_node G) n attr; _adj := _adj G |}.

(** [G.nodes[n][..] = f(G.nodes[n][..])] *)
Definition update_node (G : DiGraph) (n : string) (f : N → N) : DiGraph :=
  {| _node := Dict.alter f (_node G) n; _adj := _adj G |}.

Definition has_edge (G : DiGraph) (u v : string) : bool :=
  Dict.has (_adj G) (u, v).

(** [G.add_edge(u, v, **attr)], all attributes given.  networkx would
    also create missing end points; the builders call it only after
    both end points have been ensured. *)
Definition add_edge (G : DiGraph) (u v : string) (attr : E) : DiGraph :=
  {| _node := _node G; _adj := Dict.set (_adj G) (u, v) attr |}.

(** [G[u][v][..] = f(G[u][v][..])] *)
Definition update_edge (G : DiGraph) (u v : string) (f : E → E) : DiGraph :=
  {| _node := _node G; _adj := Dict.alter f (_adj G) (u, v) |}.

(** [list(G.predecessors(n))] *)
Definition predecessors (G : DiGraph) (n : string) : list string :=
  omap (λ e, if decide (e.1.2 = n) then Some e.1.1 else None) (_adj G).

(** [list(G.successors(n))] *)
Definition successors (G : DiGraph) (n : string) : list string :=
  omap (λ e, if decide (e.1.1 = n) then Some e.1.2 else None) (_adj G).

(** [G.subgraph(keep).copy()]: the nodes of [keep] and the edges with
    both end points in [keep], attribute dicts copied.  The copy is
    listed here in the order of [G]; networkx may enumerate it in the
    iteration order of the set [keep] instead, so nothing below depends
    on the order inside a copy. *)
Definition subgraph_copy (G : DiGraph) (keep : gset string) : DiGraph :=
  {| _node := filter (λ kv, kv.1 ∈ keep) (_node G);
     _adj := filter (λ e, e.1.1 ∈ keep ∧ e.1.2 ∈ keep) (_adj G) |}.

(** Attribute look-ups: [G.nodes.get(n)] and the data of edge [(u, v)]. *)
Definition node_attr (G : DiGraph) (n : string) : option N :=
  Dict.get (_node G) n.

Definition edge_attr (G : DiGraph) (u v : string) : option E :=
  Dict.get (_adj G) (u, v).
End DiGraph.
Arguments DiGraph : clear implicits.
End Nx.

(** ** Transaction records

    A record is a dict read with [tx.get]: [from] and [to] are addresses
    when present ([None] for a missing key or a null), [value] is any
    scalar ([None] for a missing key, for which [tx.get] has a default). *)

Record Tx := mkTx {
  tx_from : option string;
  tx_to : option string;
  tx_value : option Py.value;
}.

(** A well-formed record [{"from": f, "to": t, "value": v}] with a string
    value, as the ledger service returns them. *)
Definition transfer (f t v : string) : Tx :=
  {| tx_from := Some f; tx_to := Some t; tx_value := Some (Py.PyStr v) |}.

(** ** desktop_app.py *)

Module DesktopApp.
Import Py.

(** [wei_to_eth]: each [try] returns what its body yields, and what the
    handler yields when the body raises. *)
Definition try_return {A} (body : result A) (handler : A) : A :=
  match body with
  | Ok a => a
  | Raise _ => handler
  end.

Definition wei_to_eth (value : Py.value) : float :=
  try_return
    (bind (builtin_int value) (λ n, int_truediv_float n 1e18))
    (try_return
       (bind (builtin_float value) (λ f, float_truediv f 1e18))
       0%float).

Record node_attr := mkNode {
  total_in : float;
  total_out : float;
  tx_in : Z;
  tx_out : Z;
}.

Record edge_attr := mkEdge {
  total_value : float;
  tx_count : Z;
}.

Abbreviation Graph := (Nx.DiGraph node_attr edge_attr).

Definition ensure_node (G : Graph) (n : string) : Graph :=
  if Nx.has_node G n then G
  else Nx.add_node G n
         {| total_in := 0; total_out := 0; tx_in := 0; tx_out := 0 |}.

(** One iteration of the loop over [txlist]. *)
Definition step (min_value_eth : float) (G : Graph) (tx : Tx) : Graph :=
  let frm := tx_from tx in
  let to := tx_to tx in
  let value := wei_to_eth (default (PyInt 0) (tx_value tx)) in
  if falsy frm || falsy to then G
  else if (value <? min_value_eth)%float then G
  else
    match frm, to with
    | Some frm, Some to =>
        let G := ensure_node G frm in
        let G := ensure_node G to in
        let G := Nx.update_node G frm (λ d,
          {| total_in := total_in d; total_out := (total_out d + value)%float;
             tx_in := tx_in d; tx_out := tx_out d |}) in
        let G := Nx.update_node G frm (λ d,
          {| total_in := total_in d; total_out := total_out d;
             tx_in := tx_in d; tx_out := tx_out d + 1 |}) in
        let G := Nx.update_node G to (λ d,
          {| total_in := (total_in d + value)%float; total_out := total_out d;
             tx_in := tx_in d; tx_out := tx_out d |}) in
        let G := Nx.update_node G to (λ d,
          {| total_in := total_in d; total_out := total_out d;
             tx_in := tx_in d + 1; tx_out := tx_out d |}) in
        if Nx.has_edge G frm to then
          let G := Nx.update_edge G frm to (λ d,
            {| total_value := (total_value d + value)%float;
               tx_count := tx_count d |}) in
          Nx.update_edge G frm to (λ d,
            {| total_value := total_value d; tx_count := tx_count d + 1 |})
        else
          Nx.add_edge G frm to {| total_value := value; tx_count := 1 |}
    | _, _ => G
    end.

Definition build_graph_from_txlist (txlist : list Tx) (min_value_eth : float)
  : Graph :=
  fold_left (step min_value_eth) txlist Nx.empty.

(** The amount a record carries: [wei_to_eth(tx.get('value', 0))]. *)
Definition amount (tx : Tx) : float :=
  wei_to_eth (default (PyInt 0) (tx_value tx)).

(** Every total of [G] is at least zero and every edge has collapsed at
    least one transfer. *)
Definition totals_nonneg (G : Graph) : Prop :=
  Forall (λ kv, (0 <=? total_in kv.2)%float = true
                ∧ (0 <=? total_out kv.2)%float = true) (Nx._node G)
  ∧ Forall (λ e, (0 <=? total_value e.2)%float = true
                 ∧ 1 ≤ tx_count e.2) (Nx._adj G).

(** The integer [10^400] written in decimal: accepted by [int()], too
    large for a float. *)
Definition digits_1e400 : string :=
  String "1" (string_of_list_ascii (replicate 400 "0"%char)).

(** Transfers of 2, 0.5 and 1.5 ether. *)
Definition mixed_amounts : list Tx :=
  [transfer "A" "B" "2000000000000000000";
   transfer "A" "B" "500000000000000000";
   transfer "B" "C" "1500000000000000000"]%string.

End DesktopApp.

(** ** graph/graph_builder.py *)

Module GraphBuilder.
Import Py.

(** Modelled from the spec: [utils/helpers.py], from which
    graph_builder.py imports [wei_to_eth], is not among the source files.
    Section 4.1 describes the converter (integer parse first, floating
    parse as fallback, [0.0] when both fail, division by [10^18]), which
    is what [desktop_app.wei_to_eth] does; the import is bound to it. *)
Definition wei_to_eth : Py.value → float := DesktopApp.wei_to_eth.

Record node_attr := mkNode {
  total_in : float;
  total_out : float;
}.

Record edge_attr := mkEdge {
  total_value : float;
}.

Abbreviation Graph := (Nx.DiGraph node_attr edge_attr).

(** The attributes of a new node: [total_in=0, total_out=0]; the integer
    [0] is written as the float it becomes at the first [+=]. *)
Definition zero_node : node_attr := {| total_in := 0; total_out := 0 |}.

(** [if not G.has_node(n): G.add_node(n, total_in=0, total_out=0)] *)
Definition ensure_node (G : Graph) (n : string) : Graph :=
  if Nx.has_node G n then G else Nx.add_node G n zero_node.

(** Lines 16-30: fold one transfer of [amt] from [frm] to [to] into [G]. *)
Definition add_transfer (G : Graph) (frm to : string) (amt : float) : Graph :=
  let G := ensure_node G frm in
  let G := ensure_node G to in
  let G := Nx.update_node G frm (λ d,
    {| total_in := total_in d; total_out := (total_out d + amt)%float |}) in
  let G := Nx.update_node G to (λ d,
    {| total_in := (total_in d + amt)%float; total_out := total_out d |}) in
  if Nx.has_edge G frm to then
    Nx.update_edge G frm to (λ d,
      {| total_value := (total_value d + amt)%float |})
  else
    Nx.add_edge G frm to {| total_value := amt |}.

(** One iteration of the loop over [txlist] (lines 9-30). *)
Definition step (G : Graph) (tx : Tx) : Graph :=
  let frm := tx_from tx in
  let to := tx_to tx in
  let amt := wei_to_eth (default (PyStr "0") (tx_value tx)) in
  if falsy frm || falsy to then G
  else
    match frm, to with
    | Some frm, Some to => add_transfer G frm to amt
    | _, _ => G
    end.

(** The loop of lines 6-30. *)
Definition aggregate (txlist : list Tx) : Graph :=
  fold_left step txlist Nx.empty.

(** Lines 32-41: the trim around the focus address. *)
Definition bound (G : Graph) (focus_addr : option string) (max_nodes : Z)
  : Graph :=
  if (max_nodes <? Nx.number_of_nodes G) && negb (falsy focus_addr) then
    let focus := lower (default ""%string focus_addr) in
    if Nx.has_node G focus then
      let neighbors := Nx.predecessors G focus ++ Nx.successors G focus in
      let neighbors := slice_to neighbors (max_nodes - 1) in
      let keep : gset string := {[ focus ]} ∪ list_to_set neighbors in
      Nx.subgraph_copy G keep
    else G
  else G.

Definition build_graph_from_txlist
  (txlist : list Tx) (focus_addr : option string) (max_nodes : Z) : Graph :=
  bound (aggregate txlist) focus_addr max_nodes.

(** *** Notions used to state what the builder computes *)

(** The amount a record carries: [wei_to_eth(tx.get("value", "0"))]. *)
Definition amount (tx : Tx) : float :=
  wei_to_eth (default (PyStr "0") (tx_value tx)).

(** The transfer a record stands for, when it names both addresses. *)
Definition transfer_of (tx : Tx) : option (string * string * float) :=
  match tx_from tx, tx_to tx with
  | Some frm, Some to =>
      if decide (frm = ""%string ∨ to = ""%string) then None
      else Some (frm, to, amount tx)
  | _, _ => None
  end.

Definition transfers (txlist : list Tx) : list (string * string * float) :=
  omap transfer_of txlist.

(** The elements of a list in the order of their first occurrence. *)
Definition first_seen {A} `{EqDecision A} (l : list A) : list A :=
  fold_left (λ acc y, if decide (y ∈ acc) then acc else acc ++ [y]) l [].

(** Addresses in the order the loop meets them: sender, then receiver. *)
Definition endpoints (ts : list (string * string * float)) : list string :=
  ts ≫= λ t, [t.1.1; t.1.2].

(** Senders of the transfers into [n], receivers of the transfers out of
    [n], in input order. *)
Definition senders_to (ts : list (string * string * float)) (n : string)
  : list string :=
  omap (λ t, if decide (t.1.2 = n) then Some t.1.1 else None) ts.

Definition receivers_from (ts : list (string * string * float)) (n : string)
  : list string :=
  omap (λ t, if decide (t.1.1 = n) then Some t.1.2 else None) ts.

(** Amounts received by [n], sent by [n], moved from [u] to [v], in input
    order. *)
Definition received (ts : list (string * string * float)) (n : string)
  : list float :=
  omap (λ t, if decide (t.1.2 = n) then Some t.2 else None) ts.

Definition sent (ts : list (string * string * float)) (n : string)
  : list float :=
  omap (λ t, if decide (t.1.1 = n) then Some t.2 else None) ts.

Definition moved (ts : list (string * string * float)) (u v : string)
  : list float :=
  omap (λ t, if decide (t.1 = (u, v)) then Some t.2 else None) ts.

(** Left-to-right floating-point sum, as accumulated by [+=]. *)
Definition fsum (start : float) (l : list float) : float :=
  fold_left PrimFloat.add l start.

(** Every total of [G] is at least zero. *)
Definition totals_nonneg (G : Graph) : Prop :=
  Forall (λ kv, (0 <=? total_in kv.2)%float = true
                ∧ (0 <=? total_out kv.2)%float = true) (Nx._node G)
  ∧ Forall (λ e, (0 <=? total_value e.2)%float = true) (Nx._adj G).

(** The three conditions under which the trim runs: over budget, a focus
    is given, and its lower-case form is a node. *)
Definition trim_active (G : Graph) (focus_addr : option string)
  (max_nodes : Z) : bool :=
  (max_nodes <? Nx.number_of_nodes G) && negb (falsy focus_addr)
  && Nx.has_node G (lower (default ""%string focus_addr)).

(** The keep set of the trim, as a list: the focus and the first
    [max_nodes - 1] neighbours. *)
Definition keep_list (G : Graph) (focus : string) (max_nodes : Z)
  : list string :=
  focus :: take (Z.to_nat (max_nodes - 1))
                (Nx.predecessors G focus ++ Nx.successors G focus).

(** The example of the spec: focus [X] with predecessors [P1], [P2] and
    successors [S1], [S2], [S3]; and the same with lower-case
    addresses. *)
Definition star_upper : list Tx :=
  [transfer "P1" "X" "1"; transfer "P2" "X" "1"; transfer "X" "S1" "1";
   transfer "X" "S2" "1"; transfer "X" "S3" "1"]%string.

(** Three transfers of 0.1, 0.2 and 0.3 ether along one edge. *)
Definition drizzle : list Tx :=
  [transfer "A" "B" "100000000000000000";
   transfer "A" "B" "200000000000000000";
   transfer "A" "B" "300000000000000000"]%string.

(** A record without receiver, one with a value that is no number, and one
    that moves minus one ether. *)
Definition no_receiver : Tx :=
  {| tx_from := Some "B"%string; tx_to := None;
     tx_value := Some (PyStr "7") |}.

Definition not_a_number : Tx := transfer "A" "B" "abc".

Definition minus_one : Tx := transfer "A" "B" "-1000000000000000000".

Definition star_lower : list Tx :=
  [transfer "p1" "x" "1"; transfer "p2" "x" "1"; transfer "x" "s1" "1";
   transfer "x" "s2" "1"; transfer "x" "s3" "1"]%string.

End GraphBuilder.

(** ** The two builders side by side

    Notions that relate [desktop_app.build_graph_from_txlist] to
    [graph_builder.build_graph_from_txlist], and the counters the former
    keeps. *)

Module Builders.
Import Py.

(** [G.number_of_edges()] *)
Definition number_of_edges {N E} (G : Nx.DiGraph N E) : Z :=
  Z.of_nat (length (Nx._adj G)).

(** The desktop builder folds a record in when both addresses are given
    and the amount is not below the threshold. *)
Definition kept (min_value_eth : float) (tx : Tx) : bool :=
  negb (falsy (tx_from tx) || falsy (tx_to tx))
  && negb (DesktopApp.amount tx <? min_value_eth)%float.

Definition Zsum (l : list Z) : Z := foldr Z.add 0 l.

(** Column sums of the counters. *)
Definition sum_tx_count (G : DesktopApp.Graph) : Z :=
  Zsum ((λ e, DesktopApp.tx_count e.2) <$> Nx._adj G).

Definition sum_tx_in (G : DesktopApp.Graph) : Z :=
  Zsum ((λ kv, DesktopApp.tx_in kv.2) <$> Nx._node G).

Definition sum_tx_out (G : DesktopApp.Graph) : Z :=
  Zsum ((λ kv, DesktopApp.tx_out kv.2) <$> Nx._node G).

(** A desktop graph without its counters. *)
Definition erase_node (d : DesktopApp.node_attr) : GraphBuilder.node_attr :=
  {| GraphBuilder.total_in := DesktopApp.total_in d;
     GraphBuilder.total_out := DesktopApp.total_out d |}.

Definition erase_edge (d : DesktopApp.edge_attr) : GraphBuilder.edge_attr :=
  {| GraphBuilder.total_value := DesktopApp.total_value d |}.

Definition erase (G : DesktopApp.Graph) : GraphBuilder.Graph :=
  {| Nx._node := prod_map id erase_node <$> Nx._node G;
     Nx._adj := prod_map id erase_edge <$> Nx._adj G |}.

(** Records that stand for the spec's star with a self-transfer of the
    focus added in front. *)
Definition star_with_loop : list Tx :=
  transfer "x" "x" "1" :: GraphBuilder.star_lower.

End Builders.

(** ** graph/graph_visualizer.py

    [pyvis_from_networkx] up to the end of its loop over the nodes: the
    entries handed to [net.add_node], or the exception that ends the call.
    The calls into pyvis ([Network], [force_atlas_2based], [add_node])
    are taken to return.  The loop over the edges, which follows, computes
    widths with [math.log1p] and is not part of the model. *)

Module Visualizer.
Import Py GraphBuilder.

(** [max(l, default=d)]: the first greatest element. *)
Definition py_max (l : list float) (d : float) : float :=
  match l with
  | [] => d
  | x :: l' => fold_left (λ m y, if (m <? y)%float then y else m) l' x
  end.

(** [s[:k]] and [len(s)] on strings. *)
Definition str_take (k : nat) (s : string) : string :=
  string_of_list_ascii (take k (list_ascii_of_string s)).

(** The integer nearest to [num / den], ties to even. *)
Definition round_half_even (num den : Z) : Z :=
  let q := num / den in
  let r := num mod den in
  if 2 * r <? den then q
  else if den <? 2 * r then q + 1
  else if Z.even q then q else q + 1.

Definition pad_left (k : nat) (s : string) : string :=
  string_of_list_ascii (replicate (k - String.length s) "0"%char) +:+ s.

(** [format(x, ".6f")]: the exact value of [x] rounded to six decimals. *)
Definition format_6f (x : float) : string :=
  let sign (s : bool) : string := if s then "-"%string else ""%string in
  match Prim2SF x with
  | S754_nan => "nan"%string
  | S754_infinity s => sign s +:+ "inf"
  | S754_zero s => sign s +:+ "0.000000"
  | S754_finite s m e =>
      let scaled :=
        if 0 <=? e then Zpos m * 2 ^ e * 10 ^ 6
        else round_half_even (Zpos m * 10 ^ 6) (2 ^ (- e)) in
      sign s +:+ pretty (Z.to_N (scaled / 10 ^ 6)) +:+ "."
      +:+ pad_left 6 (pretty (Z.to_N (scaled mod 10 ^ 6)))
  end.

(** The keyword arguments of one [net.add_node] call. *)
Record node_entry := mkEntry {
  n_id : string;
  n_label : string;
  n_title : string;
  n_size : float;
  n_color : option string;
}.

(** [d.get("total_in", 0) + d.get("total_out", 0)] *)
Definition volume (d : node_attr) : float := (total_in d + total_out d)%float.

Definition max_volume (G : Graph) : float :=
  py_max ((λ kv, volume kv.2) <$> Nx._node G) 1.

(** [focus_node and n.lower() == focus_node.lower()] *)
Definition is_focus (focus_node : option string) (n : string) : bool :=
  negb (falsy focus_node)
  && bool_decide (lower n = lower (default ""%string focus_node)).

(** The body of the loop over the nodes. *)
Definition node_entry_of (focus_node : option string) (max_volume : float)
    (kv : string * node_attr) : result node_entry :=
  let '(n, d) := kv in
  let vol := volume d in
  bind (float_truediv vol max_volume) (λ q,
    let size := (10 + 50 * q)%float in
    let color := if is_focus focus_node n then Some "#ffcc00"%string else None in
    Ok {| n_id := n;
          n_label := if (14 <? String.length n)%nat
                     then (str_take 10 n +:+ "...")%string else n;
          n_title := ("In: " +:+ format_6f (total_in d) +:+ " | Out: "
                      +:+ format_6f (total_out d))%string;
          n_size := size;
          n_color := color |}).

(** A [for] loop that collects what its body returns and stops at the
    first exception. *)
Fixpoint for_each {A B} (body : A → result B) (l : list A) : result (list B) :=
  match l with
  | [] => Ok []
  | a :: l' =>
      bind (body a) (λ b, bind (for_each body l') (λ bs, Ok (b :: bs)))
  end.

Definition pyvis_nodes (G : Graph) (focus_node : option string)
  : result (list node_entry) :=
  for_each (node_entry_of focus_node (max_volume G)) (Nx._node G).

(** Every total of [G] is [0.0]. *)
Definition totals_zero (G : Graph) : Prop :=
  Forall (λ kv, total_in kv.2 = 0%float ∧ total_out kv.2 = 0%float)
    (Nx._node G).

End Visualizer.

(** ** desktop_app.py, [draw_network]

    What [draw_network] computes from the graph before it hands it to
    matplotlib: nothing when the graph has no node (the early return that
    shows "No nodes to display"), else the node sizes, or the exception
    that ends the call.  The layout and the drawing calls are not part of
    the model; [nx.spring_layout] is taken to return. *)

Module DesktopDraw.
Import Py DesktopApp.

(** [d.get('total_in',0) + d.get('total_out',0)] *)
Definition node_volume (d : node_attr) : float :=
  (total_in d + total_out d)%float.

Definition vols (G : Graph) : list float :=
  (λ kv, node_volume kv.2) <$> Nx._node G.

(** [maxv = max(vols) if vols else 1.0] and the list of sizes. *)
Definition node_sizes (G : Graph) : result (option (list float)) :=
  if Nx.number_of_nodes G =? 0 then Ok None
  else
    let vols := vols G in
    let maxv := Visualizer.py_max vols 1 in
    bind (Visualizer.for_each
            (λ v, bind (float_truediv v maxv)
                    (λ q, Ok (50 + 400 * q)%float)) vols)
      (λ sizes, Ok (Some sizes)).

End DesktopDraw.

(** * Properties *)

(** ** Binary64 facts

    [0 <=? x] holds exactly for zeros, positive finite numbers and
    [+infinity]; addition stays inside this set. *)

Module FloatFacts.
Import Py.

Lemma SFleb_zero_nonneg s : SFleb (S754_zero false) s = sf_nonneg s.
Proof. destruct s as [| [] | | [] ? ?]; reflexivity. Qed.

Lemma shr_1_nonneg mrs : 0 ≤ shr_m mrs → 0 ≤ shr_m (shr_1 mrs).
Proof.
  destruct mrs as [m r s]; simpl.
  destruct m as [|[p|p|]|[p|p|]]; simpl; lia.
Qed.

Lemma iter_shr_1_nonneg p mrs :
  0 ≤ shr_m mrs → 0 ≤ shr_m (SpecFloat.iter_pos shr_1 p mrs).
Proof.
  revert mrs. induction p as [p IH|p IH|]; intros mrs H; simpl.
  - apply IH, IH, shr_1_nonneg, H.
  - apply IH, IH, H.
  - apply shr_1_nonneg, H.
Qed.

Lemma shr_fexp_nonneg prec emax m e l :
  0 ≤ m → 0 ≤ shr_m (shr_fexp prec emax m e l).1.
Proof.
  intros H. unfold shr_fexp, shr.
  assert (Hm : 0 ≤ shr_m (shr_record_of_loc m l)).
  { destruct l as [|[]]; exact H. }
  destruct (fexp prec emax (Zdigits2 m + e) - e); simpl; auto.
  apply iter_shr_1_nonneg, Hm.
Qed.

Lemma round_nearest_even_nonneg m l : 0 ≤ m → 0 ≤ round_nearest_even m l.
Proof.
  intros H. destruct l as [|[]]; simpl; try lia. destruct (Z.even m); lia.
Qed.

Lemma binary_round_aux_nonneg prec emax m e l :
  0 ≤ m → sf_nonneg (binary_round_aux prec emax false m e l) = true.
Proof.
  intros H. unfold binary_round_aux.
  pose proof (shr_fexp_nonneg prec emax m e l H) as H1.
  destruct (shr_fexp prec emax m e l) as [mrs' e']. simpl in H1.
  pose proof (shr_fexp_nonneg prec emax _ e' loc_Exact
                (round_nearest_even_nonneg _ (loc_of_shr_record mrs') H1)) as H2.
  destruct (shr_fexp prec emax _ e' loc_Exact) as [mrs'' e'']. simpl in H2.
  destruct (shr_m mrs''); [reflexivity| |lia].
  destruct (e'' <=? emax - prec); reflexivity.
Qed.

Lemma binary_normalize_nonneg prec emax m e :
  0 ≤ m → sf_nonneg (binary_normalize prec emax m e false) = true.
Proof.
  intros H. destruct m as [|p|p]; [reflexivity| |lia].
  simpl. unfold binary_round.
  destruct (shl_align p e _) as [mz ez]. by apply binary_round_aux_nonneg.
Qed.

Lemma SFadd_nonneg prec emax x y :
  sf_nonneg x = true → sf_nonneg y = true →
  sf_nonneg (SFadd prec emax x y) = true.
Proof.
  destruct x as [sx|sx| |sx mx ex], y as [sy|sy| |sy my ey]; simpl;
    try discriminate; try (destruct sx, sy; simpl; congruence); auto.
  destruct sx, sy; try discriminate. intros _ _.
  unfold SFadd, cond_Zopp. apply binary_normalize_nonneg. lia.
Qed.

Lemma add_nonneg (x y : float) :
  (0 <=? x)%float = true → (0 <=? y)%float = true →
  (0 <=? x + y)%float = true.
Proof.
  rewrite !leb_spec, add_spec.
  change (Prim2SF 0) with (S754_zero false).
  rewrite !SFleb_zero_nonneg. apply SFadd_nonneg.
Qed.

End FloatFacts.

(** ** Ordered dictionaries *)

Module DictFacts.
Section DictFacts.
Context {K V : Type} `{EqDecision K}.
Implicit Types (d : Dict.t K V) (k : K) (v : V).

Lemma get_set d k v k' :
  Dict.get (Dict.set d k v) k' =
    if decide (k = k') then Some v else Dict.get d k'.
Proof.
  induction d as [|[k0 v0] d IH]; simpl.
  - repeat case_decide; congruence.
  - repeat (case_decide; simpl); try congruence.
Qed.

Lemma get_alter f d k k' :
  Dict.get (Dict.alter f d k) k' =
    if decide (k = k') then f <$> Dict.get d k' else Dict.get d k'.
Proof.
  induction d as [|[k0 v0] d IH]; simpl.
  - by case_decide.
  - repeat (case_decide; simpl); try congruence.
Qed.

Lemma has_get d k : Dict.has d k = bool_decide (is_Some (Dict.get d k)).
Proof.
  unfold Dict.has. destruct (Dict.get d k); symmetry.
  - apply bool_decide_eq_true; eauto.
  - apply bool_decide_eq_false. by intros [? ?].
Qed.

Lemma has_true d k : Dict.has d k = true ↔ is_Some (Dict.get d k).
Proof. rewrite has_get. apply bool_decide_eq_true. Qed.

Lemma has_keys d k : Dict.has d k = true ↔ k ∈ Dict.keys d.
Proof.
  unfold Dict.has, Dict.keys. induction d as [|[k0 v0] d IH]; simpl.
  - split; [done|]. by intros ?%elem_of_nil.
  - rewrite elem_of_cons. case_decide; subst.
    + split; auto.
    + rewrite IH. split; [auto|]. intros [?|?]; [congruence|done].
Qed.

Lemma has_false_keys d k : Dict.has d k = false ↔ k ∉ Dict.keys d.
Proof. rewrite <- has_keys. by destruct (Dict.has d k). Qed.

Lemma keys_alter f d k : Dict.keys (Dict.alter f d k) = Dict.keys d.
Proof.
  unfold Dict.keys. induction d as [|[k0 v0] d IH]; simpl; [done|].
  case_decide; csimpl; [done | by rewrite IH].
Qed.

Lemma keys_set d k v :
  Dict.keys (Dict.set d k v) =
    if Dict.has d k then Dict.keys d else Dict.keys d ++ [k].
Proof.
  unfold Dict.keys, Dict.has. induction d as [|[k0 v0] d IH]; simpl; [done|].
  case_decide; csimpl; [done|].
  rewrite IH. by destruct (Dict.get d k).
Qed.

(** Filtering on keys keeps the entries of the keys that pass. *)
Lemma get_filter_keys (P : K → Prop) `{∀ k, Decision (P k)} d k :
  Dict.get (filter (λ kv, P kv.1) d) k =
    if decide (P k) then Dict.get d k else None.
Proof.
  induction d as [|[k0 v0] d IH].
  - simpl. by case_decide.
  - rewrite filter_cons. simpl.
    destruct (decide (P k0)) as [HP|HP]; simpl;
      repeat case_decide; subst; try done.
Qed.

Lemma keys_filter_keys (P : K → Prop) `{∀ k, Decision (P k)} d :
  Dict.keys (filter (λ kv, P kv.1) d) = filter P (Dict.keys d).
Proof.
  unfold Dict.keys. induction d as [|[k0 v0] d IH]; [done|].
  csimpl. rewrite !filter_cons. simpl. case_decide; csimpl; by rewrite IH.
Qed.

Lemma Forall_set (Q : K * V → Prop) d k v :
  (∀ k', Q (k', v)) → Forall Q d → Forall Q (Dict.set d k v).
Proof.
  intros Hv. induction 1 as [|[k0 v0] d H0 Hd IH]; simpl.
  - by constructor.
  - case_decide; constructor; auto.
Qed.

Lemma Forall_alter (Q : K * V → Prop) f d k :
  (∀ k' v', Q (k', v') → Q (k', f v')) →
  Forall Q d → Forall Q (Dict.alter f d k).
Proof.
  intros Hf. induction 1 as [|[k0 v0] d H0 Hd IH]; simpl.
  - constructor.
  - case_decide; constructor; auto.
Qed.
End DictFacts.
End DictFacts.

(** ** Lists in first-occurrence order *)

Module FirstSeenFacts.
Import GraphBuilder.
Section FirstSeen.
Context {A : Type} `{EqDecision A}.
Implicit Types (l : list A) (x y : A).

Lemma first_seen_snoc l y :
  first_seen (l ++ [y]) =
    if decide (y ∈ first_seen l) then first_seen l else first_seen l ++ [y].
Proof. unfold first_seen. by rewrite fold_left_app. Qed.

Lemma elem_of_first_seen l x : x ∈ first_seen l ↔ x ∈ l.
Proof.
  induction l as [|y l IH] using rev_ind.
  - done.
  - rewrite first_seen_snoc, elem_of_app, list_elem_of_singleton, <- IH.
    case_decide; [|rewrite elem_of_app, list_elem_of_singleton; tauto].
    split; [tauto|]. intros [? | ->]; done.
Qed.

Lemma NoDup_first_seen l : NoDup (first_seen l).
Proof.
  induction l as [|y l IH] using rev_ind.
  - constructor.
  - rewrite first_seen_snoc. case_decide; [done|].
    apply NoDup_app. split_and!; [done| |apply NoDup_singleton].
    intros x Hx ->%list_elem_of_singleton. done.
Qed.

Lemma first_seen_step_keys l y :
  (if decide (y ∈ first_seen l) then first_seen l else first_seen l ++ [y])
  = first_seen (l ++ [y]).
Proof. by rewrite first_seen_snoc. Qed.
End FirstSeen.

(** Selecting with a partial map that is injective where it is defined
    commutes with taking first occurrences. *)
Lemma omap_first_seen {A B} `{EqDecision A} `{EqDecision B}
    (p : A → option B) (l : list A) :
  (∀ a a' b, p a = Some b → p a' = Some b → a = a') →
  omap p (first_seen l) = first_seen (omap p l).
Proof.
  intros Hinj. induction l as [|y l IH] using rev_ind; [done|].
  rewrite omap_app, first_seen_snoc. simpl.
  destruct (p y) as [b|] eqn:Hy; simpl.
  - rewrite first_seen_snoc, <- IH.
    destruct (decide (y ∈ first_seen l)) as [Hin|Hin].
    + rewrite decide_True; [done|].
      apply list_elem_of_omap. eauto.
    + rewrite decide_False.
      * rewrite omap_app. simpl. by rewrite Hy.
      * intros (a & Ha & Hpa)%list_elem_of_omap.
        by rewrite (Hinj _ _ _ Hy Hpa) in Hin.
  - rewrite app_nil_r, <- IH. case_decide; [done|].
    rewrite omap_app. simpl. by rewrite Hy, app_nil_r.
Qed.
End FirstSeenFacts.

(** ** The graph after one transfer *)

Module TransferFacts.
Import Py GraphBuilder DictFacts.

Lemma has_node_attr (G : Graph) n :
  Nx.has_node G n = true ↔ is_Some (Nx.node_attr G n).
Proof. apply has_true. Qed.

Lemma node_attr_ensure (G : Graph) n k :
  Nx.node_attr (ensure_node G n) k =
    if decide (n = k) then Some (default zero_node (Nx.node_attr G k))
    else Nx.node_attr G k.
Proof.
  unfold ensure_node, Nx.has_node, Dict.has, Nx.node_attr.
  destruct (Dict.get (Nx._node G) n) as [d|] eqn:Hn; simpl.
  - case_decide; subst; by rewrite ?Hn.
  - rewrite get_set. case_decide; subst; by rewrite ?Hn.
Qed.

Lemma add_transfer_node (G : Graph) f t a :
  Nx._node (add_transfer G f t a) =
    Dict.alter (λ d, {| total_in := (total_in d + a)%float;
                        total_out := total_out d |})
      (Dict.alter (λ d, {| total_in := total_in d;
                           total_out := (total_out d + a)%float |})
         (Nx._node (ensure_node (ensure_node G f) t)) f) t.
Proof. unfold add_transfer. by destruct (Nx.has_edge _ f t). Qed.

Lemma ensure_node_adj (G : Graph) n : Nx._adj (ensure_node G n) = Nx._adj G.
Proof. unfold ensure_node. by case (Nx.has_node G n). Qed.

Lemma add_transfer_adj (G : Graph) f t a :
  Nx._adj (add_transfer G f t a) =
    if Dict.has (Nx._adj G) (f, t)
    then Dict.alter (λ d, {| total_value := (total_value d + a)%float |})
           (Nx._adj G) (f, t)
    else Dict.set (Nx._adj G) (f, t) {| total_value := a |}.
Proof.
  unfold add_transfer, Nx.has_edge. simpl. rewrite !ensure_node_adj.
  destruct (Dict.has (Nx._adj G) (f, t)); simpl; by rewrite !ensure_node_adj.
Qed.

(** Node attributes after a transfer: the two end points exist, the
    sender's [total_out] and the receiver's [total_in] grew by [a]. *)
Lemma node_attr_add_transfer (G : Graph) f t a n :
  Nx.node_attr (add_transfer G f t a) n =
    if decide (n = f ∨ n = t) then
      let d := default zero_node (Nx.node_attr G n) in
      Some {| total_in := if decide (n = t) then (total_in d + a)%float
                          else total_in d;
              total_out := if decide (n = f) then (total_out d + a)%float
                           else total_out d |}
    else Nx.node_attr G n.
Proof.
  unfold Nx.node_attr at 1. rewrite add_transfer_node, !get_alter.
  fold (Nx.node_attr (ensure_node (ensure_node G f) t) n).
  rewrite !node_attr_ensure.
  destruct (Nx.node_attr G n) as [[i o]|]; simpl;
    repeat case_decide; simplify_eq/=; try done; intuition congruence.
Qed.

(** Edge attributes after a transfer. *)
Lemma edge_attr_add_transfer (G : Graph) f t a u v :
  Nx.edge_attr (add_transfer G f t a) u v =
    if decide ((f, t) = (u, v)) then
      Some match Nx.edge_attr G f t with
           | Some d => {| total_value := (total_value d + a)%float |}
           | None => {| total_value := a |}
           end
    else Nx.edge_attr G u v.
Proof.
  unfold Nx.edge_attr. rewrite add_transfer_adj. unfold Dict.has.
  destruct (Dict.get (Nx._adj G) (f, t)) as [d|] eqn:He.
  - rewrite get_alter. case_decide as Hk; [|done].
    by rewrite <- Hk, He.
  - by rewrite get_set.
Qed.

Lemma node_keys_ensure (G : Graph) n :
  Dict.keys (Nx._node (ensure_node G n)) =
    if decide (n ∈ Dict.keys (Nx._node G)) then Dict.keys (Nx._node G)
    else Dict.keys (Nx._node G) ++ [n].
Proof.
  unfold ensure_node, Nx.has_node.
  destruct (Dict.has (Nx._node G) n) eqn:Hn.
  - rewrite decide_True; [done|]. by apply has_keys.
  - rewrite decide_False by by apply has_false_keys.
    simpl. by rewrite keys_set, Hn.
Qed.

Lemma node_keys_add_transfer (G : Graph) f t a :
  Dict.keys (Nx._node (add_transfer G f t a)) =
    Dict.keys (Nx._node (ensure_node (ensure_node G f) t)).
Proof. by rewrite add_transfer_node, !keys_alter. Qed.

Lemma adj_keys_add_transfer (G : Graph) f t a :
  Dict.keys (Nx._adj (add_transfer G f t a)) =
    if decide ((f, t) ∈ Dict.keys (Nx._adj G)) then Dict.keys (Nx._adj G)
    else Dict.keys (Nx._adj G) ++ [(f, t)].
Proof.
  rewrite add_transfer_adj.
  destruct (Dict.has (Nx._adj G) (f, t)) eqn:He.
  - rewrite decide_True by by apply has_keys. apply keys_alter.
  - rewrite decide_False by by apply has_false_keys.
    by rewrite keys_set, He.
Qed.

(** A record contributes the transfer it stands for, or nothing. *)
Lemma step_transfer (G : Graph) tx :
  step G tx =
    match transfer_of tx with
    | Some (f, t, a) => add_transfer G f t a
    | None => G
    end.
Proof.
  unfold step, transfer_of, amount, falsy.
  destruct (tx_from tx) as [f|], (tx_to tx) as [t|]; simpl; try done.
  - repeat case_bool_decide; case_decide; simplify_eq/=; try done;
      intuition congruence.
  - by rewrite orb_true_r.
Qed.

Lemma step_skip (G : Graph) tx :
  falsy (tx_from tx) = true ∨ falsy (tx_to tx) = true → step G tx = G.
Proof. unfold step. intros [-> | ->]; by rewrite ?orb_true_r. Qed.
End TransferFacts.

(** ** The aggregated graph in closed form *)

Module AggregateFacts.
Import Py GraphBuilder DictFacts FirstSeenFacts TransferFacts.
Implicit Types (txs : list Tx) (ts : list (string * string * float)).

Lemma aggregate_snoc txs tx :
  aggregate (txs ++ [tx]) = step (aggregate txs) tx.
Proof. unfold aggregate. by rewrite fold_left_app. Qed.

Lemma aggregate_app txs1 txs2 :
  aggregate (txs1 ++ txs2) = fold_left step txs2 (aggregate txs1).
Proof. unfold aggregate. by rewrite fold_left_app. Qed.

Lemma transfers_snoc txs tx :
  transfers (txs ++ [tx]) = transfers txs ++ option_list (transfer_of tx).
Proof.
  unfold transfers. rewrite omap_app. simpl.
  by destruct (transfer_of tx).
Qed.

Lemma fsum_snoc s l a : fsum s (l ++ [a]) = (fsum s l + a)%float.
Proof. unfold fsum. by rewrite fold_left_app. Qed.

Lemma endpoints_snoc ts f t a :
  endpoints (ts ++ [(f, t, a)]) = (endpoints ts ++ [f]) ++ [t].
Proof. unfold endpoints. rewrite bind_app. simpl. by rewrite <- app_assoc. Qed.

Lemma elem_of_endpoints ts n :
  n ∈ endpoints ts ↔ ∃ x, x ∈ ts ∧ (n = x.1.1 ∨ n = x.1.2).
Proof.
  unfold endpoints. rewrite list_elem_of_bind.
  split; intros (x & H1 & H2); exists x.
  - rewrite !elem_of_cons in H1. destruct H1 as [?|[?|?%elem_of_nil]]; by auto.
  - split; [|done]. rewrite !elem_of_cons. tauto.
Qed.

Lemma received_snoc ts f t a n :
  received (ts ++ [(f, t, a)]) n =
    received ts n ++ (if decide (t = n) then [a] else []).
Proof. unfold received. rewrite omap_app. simpl. by case_decide. Qed.

Lemma sent_snoc ts f t a n :
  sent (ts ++ [(f, t, a)]) n =
    sent ts n ++ (if decide (f = n) then [a] else []).
Proof. unfold sent. rewrite omap_app. simpl. by case_decide. Qed.

Lemma moved_snoc ts f t a u v :
  moved (ts ++ [(f, t, a)]) u v =
    moved ts u v ++ (if decide ((f, t) = (u, v)) then [a] else []).
Proof. unfold moved. rewrite omap_app. simpl. by case_decide. Qed.

Lemma received_nil ts n : n ∉ endpoints ts → received ts n = [].
Proof.
  intros Hn. unfold received. induction ts as [|[[f t] a] ts IH]; [done|].
  simpl. rewrite elem_of_endpoints in Hn.
  rewrite decide_False.
  - apply IH. rewrite elem_of_endpoints. intros (x & ? & ?).
    apply Hn. exists x. rewrite elem_of_cons. auto.
  - intros ->. apply Hn. exists (f, n, a). rewrite elem_of_cons. auto.
Qed.

Lemma sent_nil ts n : n ∉ endpoints ts → sent ts n = [].
Proof.
  intros Hn. unfold sent. induction ts as [|[[f t] a] ts IH]; [done|].
  simpl. rewrite elem_of_endpoints in Hn.
  rewrite decide_False.
  - apply IH. rewrite elem_of_endpoints. intros (x & ? & ?).
    apply Hn. exists x. rewrite elem_of_cons. auto.
  - intros ->. apply Hn. exists (n, t, a). rewrite elem_of_cons. auto.
Qed.

(** Nodes are listed in the order the loop first met their addresses. *)
Lemma node_keys_aggregate txs :
  Dict.keys (Nx._node (aggregate txs)) = first_seen (endpoints (transfers txs)).
Proof.
  induction txs as [|tx txs IH] using rev_ind; [done|].
  rewrite aggregate_snoc, step_transfer, transfers_snoc.
  destruct (transfer_of tx) as [[[f t] a]|]; simpl.
  - rewrite node_keys_add_transfer, !node_keys_ensure, IH, endpoints_snoc.
    by rewrite !first_seen_step_keys.
  - by rewrite app_nil_r.
Qed.

(** Edges are listed in the order their first transfer was met. *)
Lemma adj_keys_aggregate txs :
  Dict.keys (Nx._adj (aggregate txs)) = first_seen (transfers txs).*1.
Proof.
  induction txs as [|tx txs IH] using rev_ind; [done|].
  rewrite aggregate_snoc, step_transfer, transfers_snoc.
  destruct (transfer_of tx) as [[[f t] a]|]; simpl.
  - rewrite adj_keys_add_transfer, IH, fmap_app. simpl.
    by rewrite first_seen_step_keys.
  - by rewrite app_nil_r.
Qed.

Lemma NoDup_node_keys txs : NoDup (Dict.keys (Nx._node (aggregate txs))).
Proof. rewrite node_keys_aggregate. apply NoDup_first_seen. Qed.

(** A node exists exactly for the addresses of the transfers, and its
    totals are the left-to-right sums of what it received and sent. *)
Lemma node_attr_aggregate txs n :
  Nx.node_attr (aggregate txs) n =
    let ts := transfers txs in
    if decide (n ∈ endpoints ts) then
      Some {| total_in := fsum 0 (received ts n);
              total_out := fsum 0 (sent ts n) |}
    else None.
Proof.
  cbv zeta. induction txs as [|tx txs IH] using rev_ind.
  { done. }
  rewrite aggregate_snoc, step_transfer, transfers_snoc.
  destruct (transfer_of tx) as [[[f t] a]|]; simpl;
    [|by rewrite app_nil_r].
  rewrite node_attr_add_transfer, IH. simpl.
  rewrite endpoints_snoc, received_snoc, sent_snoc.
  set (ts := transfers txs).
  destruct (decide (n ∈ endpoints ts)) as [Hin|Hin].
  - rewrite (decide_True (P := n ∈ _)) by (rewrite !elem_of_app; auto).
    simpl. repeat case_decide; simplify_eq/=;
      rewrite ?app_nil_r, ?fsum_snoc; try done; intuition congruence.
  - rewrite (received_nil _ _ Hin), (sent_nil _ _ Hin). simpl.
    repeat case_decide; simplify_eq/=; try done;
      rewrite !elem_of_app, !list_elem_of_singleton in *; intuition congruence.
Qed.

(** An edge exists exactly for the pairs some transfer joins, and its
    total is the left-to-right sum of the amounts moved along it. *)
Lemma edge_attr_aggregate txs u v :
  Nx.edge_attr (aggregate txs) u v =
    match moved (transfers txs) u v with
    | [] => None
    | a :: l => Some {| total_value := fsum a l |}
    end.
Proof.
  induction txs as [|tx txs IH] using rev_ind; [done|].
  rewrite aggregate_snoc, step_transfer, transfers_snoc.
  destruct (transfer_of tx) as [[[f t] a]|]; simpl;
    [|by rewrite app_nil_r].
  rewrite edge_attr_add_transfer, moved_snoc.
  case_decide as Hk; [|by rewrite app_nil_r].
  injection Hk as -> ->. rewrite IH.
  destruct (moved (transfers txs) u v) as [|a0 l]; simpl; [done|].
  by rewrite fsum_snoc.
Qed.
End AggregateFacts.

(** ** The trim *)

Module TrimFacts.
Import Py GraphBuilder DictFacts FirstSeenFacts TransferFacts AggregateFacts.

Lemma omap_fmap {A B C} (g : A → B) (p : B → option C) (l : list A) :
  omap p (g <$> l) = omap (λ a, p (g a)) l.
Proof. induction l as [|a l IH]; csimpl; [done|]. by rewrite IH. Qed.

Lemma bound_inactive (G : Graph) fo m :
  trim_active G fo m = false → bound G fo m = G.
Proof.
  unfold trim_active, bound. intros H.
  destruct (_ && negb _); [|done]. simpl in H. by rewrite H.
Qed.

Lemma bound_active (G : Graph) fo m :
  trim_active G fo m = true →
  bound G fo m =
    let x := lower (default ""%string fo) in
    Nx.subgraph_copy G
      (list_to_set
         (x :: slice_to (Nx.predecessors G x ++ Nx.successors G x) (m - 1))).
Proof.
  unfold trim_active, bound. intros [-> ->]%andb_true_iff. done.
Qed.

Lemma node_attr_subgraph (G : Graph) (keep : gset string) n :
  Nx.node_attr (Nx.subgraph_copy G keep) n =
    if decide (n ∈ keep) then Nx.node_attr G n else None.
Proof.
  unfold Nx.node_attr, Nx.subgraph_copy. simpl.
  exact (get_filter_keys (λ k, k ∈ keep) (Nx._node G) n).
Qed.

Lemma edge_attr_subgraph (G : Graph) (keep : gset string) u v :
  Nx.edge_attr (Nx.subgraph_copy G keep) u v =
    if decide (u ∈ keep ∧ v ∈ keep) then Nx.edge_attr G u v else None.
Proof.
  unfold Nx.edge_attr, Nx.subgraph_copy. simpl.
  exact (get_filter_keys (λ k, k.1 ∈ keep ∧ k.2 ∈ keep) (Nx._adj G) (u, v)).
Qed.

Lemma trim_active_true (G : Graph) fo m :
  trim_active G fo m = true ↔
    m < Nx.number_of_nodes G ∧ falsy fo = false
    ∧ Nx.has_node G (lower (default ""%string fo)) = true.
Proof.
  unfold trim_active. rewrite !andb_true_iff, Z.ltb_lt, negb_true_iff. tauto.
Qed.

Lemma bound_changes (G : Graph) fo m :
  bound G fo m ≠ G → trim_active G fo m = true.
Proof.
  intros H. destruct (trim_active G fo m) eqn:Ha; [done|].
  by apply bound_inactive in Ha.
Qed.

(** A copy restricted to the elements of [l] has at most [length l]
    nodes. *)
Lemma number_of_nodes_subgraph (G : Graph) (l : list string) :
  NoDup (Dict.keys (Nx._node G)) →
  Nx.number_of_nodes (Nx.subgraph_copy G (list_to_set l)) ≤ Z.of_nat (length l).
Proof.
  intros Hnd. unfold Nx.number_of_nodes, Nx.subgraph_copy. simpl.
  apply Nat2Z.inj_le.
  rewrite <- (length_fmap fst).
  change (fst <$> ?d) with (Dict.keys d).
  pose proof (keys_filter_keys (λ k, k ∈ (list_to_set l : gset string))
                (Nx._node G)) as ->.
  apply submseteq_length, NoDup_submseteq.
  - by apply NoDup_filter.
  - intros x [Hx _]%list_elem_of_filter. by apply elem_of_list_to_set in Hx.
Qed.

Lemma slice_to_nonneg {A} (l : list A) k :
  0 ≤ k → slice_to l k = take (Z.to_nat k) l.
Proof. intros H. unfold slice_to. by rewrite (proj2 (Z.leb_le 0 k)). Qed.

Lemma predecessors_keys (G : Graph) n :
  Nx.predecessors G n =
    omap (λ k, if decide (k.2 = n) then Some k.1 else None)
         (Dict.keys (Nx._adj G)).
Proof.
  symmetry.
  exact (omap_fmap fst (λ k, if decide (k.2 = n) then Some k.1 else None)
           (Nx._adj G)).
Qed.

Lemma successors_keys (G : Graph) n :
  Nx.successors G n =
    omap (λ k, if decide (k.1 = n) then Some k.2 else None)
         (Dict.keys (Nx._adj G)).
Proof.
  symmetry.
  exact (omap_fmap fst (λ k, if decide (k.1 = n) then Some k.2 else None)
           (Nx._adj G)).
Qed.

(** The sources of the edges into [n], in the order of their first
    transfer. *)
Lemma predecessors_aggregate txs n :
  Nx.predecessors (aggregate txs) n = first_seen (senders_to (transfers txs) n).
Proof.
  rewrite predecessors_keys, adj_keys_aggregate, omap_first_seen.
  - f_equal.
    exact (omap_fmap fst (λ k, if decide (k.2 = n) then Some k.1 else None)
             (transfers txs)).
  - intros [u v] [u' v'] b. simpl. repeat case_decide; congruence.
Qed.

Lemma successors_aggregate txs n :
  Nx.successors (aggregate txs) n =
    first_seen (receivers_from (transfers txs) n).
Proof.
  rewrite successors_keys, adj_keys_aggregate, omap_first_seen.
  - f_equal.
    exact (omap_fmap fst (λ k, if decide (k.1 = n) then Some k.2 else None)
             (transfers txs)).
  - intros [u v] [u' v'] b. simpl. repeat case_decide; congruence.
Qed.

(** After a trim with a budget of at least one the graph is within
    budget. *)
Lemma bound_within_budget txs fo m :
  1 ≤ m → trim_active (aggregate txs) fo m = true →
  Nx.number_of_nodes (bound (aggregate txs) fo m) ≤ m.
Proof.
  intros Hm Ha. rewrite (bound_active _ _ _ Ha). cbv zeta.
  etrans; [apply number_of_nodes_subgraph, NoDup_node_keys|].
  rewrite slice_to_nonneg by lia. simpl. rewrite length_take. lia.
Qed.
End TrimFacts.

(** * The claims of the specification *)

(** ** Size-bound trim (graph/graph_builder.py, lines 32-41) *)

Section TrimClaims.
Import Py GraphBuilder TrimFacts AggregateFacts.
#[local] Open Scope string_scope.
#[local] Open Scope Z_scope.

(** C1, as the code has it.  When the trim runs with a budget of at least
    one (more than [max_nodes] nodes, a non-empty focus whose lower-case
    form is a node), the result is the induced subgraph on the lower-cased
    focus and the first [max_nodes - 1] entries of its neighbour list: the
    sources of its incoming edges, then the targets of its outgoing edges,
    each in the order of the first transfer along the edge.  Kept nodes and
    edges carry their attributes from the full graph, dropped ones are
    absent. *)
Theorem trim_keeps_focus_neighbourhood (txs : list Tx) (f : string) (m : Z) :
  let G := aggregate txs in
  let x := lower f in
  let ts := transfers txs in
  let G' := build_graph_from_txlist txs (Some f) m in
  1 ≤ m → m < Nx.number_of_nodes G → f ≠ "" → Nx.has_node G x = true →
  Nx.predecessors G x = first_seen (senders_to ts x)
  ∧ Nx.successors G x = first_seen (receivers_from ts x)
  ∧ (∀ n, Nx.node_attr G' n =
          if decide (n ∈ keep_list G x m) then Nx.node_attr G n else None)
  ∧ (∀ u v, Nx.edge_attr G' u v =
            if decide (u ∈ keep_list G x m ∧ v ∈ keep_list G x m)
            then Nx.edge_attr G u v else None).
Proof.
  intros G x ts G' Hm Hover Hf Hx.
  assert (Ha : trim_active G (Some f) m = true).
  { apply trim_active_true. split_and!; [done| |done].
    by apply bool_decide_eq_false_2. }
  assert (Hkeep : ∀ n,
    n ∈ (list_to_set
           (x :: slice_to (Nx.predecessors G x ++ Nx.successors G x) (m - 1))
         : gset string) ↔ n ∈ keep_list G x m).
  { intros n. rewrite elem_of_list_to_set, slice_to_nonneg by lia. done. }
  split_and!.
  - apply predecessors_aggregate.
  - apply successors_aggregate.
  - intros n. unfold G', build_graph_from_txlist. fold G.
    rewrite (bound_active _ _ _ Ha). cbv zeta. simpl default. fold x.
    rewrite node_attr_subgraph. apply decide_ext, Hkeep.
  - intros u v. unfold G', build_graph_from_txlist. fold G.
    rewrite (bound_active _ _ _ Ha). cbv zeta. simpl default. fold x.
    rewrite edge_attr_subgraph. apply decide_ext. by rewrite !Hkeep.
Qed.

(** The example of the spec with lower-case addresses: focus [x], budget 3,
    keep set [x], [p1], [p2]. *)
Lemma trim_keeps_focus_neighbourhood_witness :
  keep_list (aggregate star_lower) "x" 3 = ["x"; "p1"; "p2"]
  ∧ Nx.node_attr (build_graph_from_txlist star_lower (Some "X") 3) "s1" = None
  ∧ Nx.node_attr (build_graph_from_txlist star_lower (Some "X") 3) "p2"
    = Nx.node_attr (aggregate star_lower) "p2".
Proof.
  destruct (trim_keeps_focus_neighbourhood star_lower "X" 3)
    as (_ & _ & Hn & _); [lia | by vm_compute | done | by vm_compute |].
  split_and!.
  - by vm_compute.
  - rewrite (Hn "s1"). by vm_compute.
  - rewrite (Hn "p2"). by vm_compute.
Defined.

(** C1 fails as stated.  In the example of the spec the focus [X] is a node
    of a graph over budget, yet nothing is trimmed: the code looks up the
    lower-case [x].  With a budget of zero the slice [neighbors[:-1]] keeps
    a neighbour although [max_nodes - 1] is negative. *)
Lemma trim_keeps_focus_neighbourhood_counterexample :
  (Nx.has_node (aggregate star_upper) "X" = true
   ∧ 3 < Nx.number_of_nodes (aggregate star_upper)
   ∧ Nx.predecessors (aggregate star_upper) "X" = ["P1"; "P2"]
   ∧ Nx.has_node (build_graph_from_txlist star_upper (Some "X") 3) "S1" = true)
  ∧ (Nx.has_node (aggregate star_lower) "x" = true
     ∧ 0 < Nx.number_of_nodes (aggregate star_lower)
     ∧ Nx.has_node (build_graph_from_txlist star_lower (Some "x") 0) "p1" = true).
Proof. by vm_compute. Qed.

(** C2, as the code has it.  The trim returns the graph itself when it has
    at most [max_nodes] nodes, or the focus is null or empty, or the
    lower-cased focus is not a node; a result that differs from the graph
    was obtained with all three conditions met. *)
Theorem trim_identity (G : Graph) (focus_addr : option string) (m : Z) :
  (Nx.number_of_nodes G ≤ m ∨ falsy focus_addr = true
   ∨ Nx.has_node G (lower (default "" focus_addr)) = false →
   bound G focus_addr m = G)
  ∧ (bound G focus_addr m ≠ G →
     m < Nx.number_of_nodes G ∧ falsy focus_addr = false
     ∧ Nx.has_node G (lower (default "" focus_addr)) = true).
Proof.
  split.
  - intros H. apply bound_inactive. unfold trim_active.
    destruct H as [H|[H|H]]; rewrite ?H, ?andb_false_r; try done.
    by rewrite (proj2 (Z.ltb_ge _ _) H).
  - intros H. by apply trim_active_true, bound_changes.
Qed.

(** Within budget, without focus, and with a focus that is no node. *)
Lemma trim_identity_witness :
  bound (aggregate star_lower) (Some "x") 6 = aggregate star_lower
  ∧ bound (aggregate star_lower) None 3 = aggregate star_lower
  ∧ bound (aggregate star_lower) (Some "y") 3 = aggregate star_lower.
Proof.
  split_and!.
  - apply (trim_identity (aggregate star_lower) (Some "x") 6).
    left. by vm_compute.
  - apply (trim_identity (aggregate star_lower) None 3). right. by left.
  - apply (trim_identity (aggregate star_lower) (Some "y") 3).
    right. right. by vm_compute.
Defined.

(** C2 fails as stated: the focus [X] is not a node of the graph, which is
    over budget, and the graph is trimmed around the node [x]. *)
Lemma trim_identity_counterexample :
  Nx.has_node (aggregate star_lower) "X" = false
  ∧ 3 < Nx.number_of_nodes (aggregate star_lower)
  ∧ bound (aggregate star_lower) (Some "X") 3 ≠ aggregate star_lower.
Proof.
  split_and!; [by vm_compute | by vm_compute |].
  intros H%(f_equal Nx.number_of_nodes). by vm_compute in H.
Qed.

(** C3, as the code has it.  For a budget of at least one the trim is
    idempotent on aggregated graphs: a trimmed graph is within budget, so
    trimming it again returns it. *)
Theorem trim_idempotent (txs : list Tx) (focus_addr : option string) (m : Z) :
  1 ≤ m →
  bound (bound (aggregate txs) focus_addr m) focus_addr m
  = bound (aggregate txs) focus_addr m.
Proof.
  intros Hm. destruct (trim_active (aggregate txs) focus_addr m) eqn:Ha.
  - apply bound_inactive. unfold trim_active.
    pose proof (bound_within_budget txs focus_addr m Hm Ha) as Hle.
    by rewrite (proj2 (Z.ltb_ge _ _) Hle).
  - by rewrite !(bound_inactive _ _ _ Ha).
Qed.

(** The example of the spec, trimmed twice around [x] with budget 3. *)
Lemma trim_idempotent_witness :
  bound (bound (aggregate star_lower) (Some "X") 3) (Some "X") 3
  = bound (aggregate star_lower) (Some "X") 3.
Proof. apply (trim_idempotent star_lower (Some "X") 3). lia. Defined.

(** C3 fails as stated: with a budget of zero the first trim drops the last
    neighbour and leaves five nodes, the second drops another one and
    leaves four. *)
Lemma trim_idempotent_counterexample :
  Nx.number_of_nodes (bound (aggregate star_lower) (Some "x") 0) = 5
  ∧ Nx.number_of_nodes
      (bound (bound (aggregate star_lower) (Some "x") 0) (Some "x") 0) = 4
  ∧ bound (bound (aggregate star_lower) (Some "x") 0) (Some "x") 0
    ≠ bound (aggregate star_lower) (Some "x") 0.
Proof.
  split_and!; [by vm_compute | by vm_compute |].
  intros H%(f_equal Nx.number_of_nodes). by vm_compute in H.
Qed.

(** C10.  The focus is lower-cased before the look-up while node keys are
    the addresses as the records spell them: when the lower-cased focus is
    not a node key the builder returns the full aggregated graph, whatever
    the budget, and a result that differs from the aggregated graph implies
    a node keyed by the lower-case form of the focus. *)
Theorem trim_looks_up_lowercase_focus
    (txs : list Tx) (focus_addr : option string) (m : Z) :
  (∀ n, Nx.has_node (aggregate txs) n = true ↔ n ∈ endpoints (transfers txs))
  ∧ (Nx.has_node (aggregate txs) (lower (default "" focus_addr)) = false →
     build_graph_from_txlist txs focus_addr m = aggregate txs)
  ∧ (build_graph_from_txlist txs focus_addr m ≠ aggregate txs →
     ∃ f, focus_addr = Some f
          ∧ Nx.has_node (aggregate txs) (lower f) = true).
Proof.
  split_and!.
  - intros n. unfold Nx.has_node.
    rewrite DictFacts.has_keys, node_keys_aggregate.
    apply FirstSeenFacts.elem_of_first_seen.
  - intros H. apply bound_inactive. unfold trim_active.
    by rewrite H, andb_false_r.
  - intros H. apply bound_changes, trim_active_true in H as (_ & H2 & H3).
    destruct focus_addr as [f|]; [eauto|done].
Qed.

(** The upper-case focus [X] of the spec's example is stored as [X]; over
    budget, the builder still returns all six nodes. *)
Lemma trim_looks_up_lowercase_focus_witness :
  build_graph_from_txlist star_upper (Some "X") 3 = aggregate star_upper.
Proof.
  apply (trim_looks_up_lowercase_focus star_upper (Some "X") 3).
  by vm_compute.
Defined.

End TrimClaims.

(** ** Unit converter (desktop_app.py, lines 43-50) *)

Section ConverterClaims.
Import Py DesktopApp.
#[local] Open Scope string_scope.
#[local] Open Scope Z_scope.

(** C5, as the code has it.  [wei_to_eth] is total: it returns a float for
    every input.  It yields [int(value) / 1e18] when the integer parse
    succeeds and the integer fits a float; otherwise [float(value) / 1e18]
    when the floating parse succeeds; otherwise [0.0].  In particular it
    maps null, ["abc"] and the empty string to [0.0] and
    ["1000000000000000000"] to [1.0]. *)
Theorem wei_to_eth_fail_safe (value : Py.value) :
  wei_to_eth value =
    (let via_float :=
       match builtin_float value with
       | Ok f => (f / 1e18)%float
       | Raise _ => 0%float
       end in
     match builtin_int value with
     | Ok n =>
         match float_of_int n with
         | Ok x => (x / 1e18)%float
         | Raise _ => via_float
         end
     | Raise _ => via_float
     end)
  ∧ wei_to_eth PyNone = 0%float
  ∧ wei_to_eth (PyStr "abc") = 0%float
  ∧ wei_to_eth (PyStr "") = 0%float
  ∧ wei_to_eth (PyStr "1000000000000000000") = 1%float.
Proof.
  split; [|by vm_compute].
  unfold wei_to_eth, try_return, int_truediv_float, float_truediv, bind.
  change (1e18 =? 0)%float with false.
  destruct (builtin_int value) as [n|e]; [destruct (float_of_int n)|];
    destruct (builtin_float value); reflexivity.
Qed.

(** C5 fails as stated on integers too large for a float: the integer
    parse of [10^400] succeeds, yet the number yields [0.0] and its decimal
    spelling yields the [inf] of the floating parse. *)
Lemma wei_to_eth_fail_safe_counterexample :
  builtin_int (PyInt (10 ^ 400)) = Ok (10 ^ 400)
  ∧ wei_to_eth (PyInt (10 ^ 400)) = 0%float
  ∧ builtin_int (PyStr digits_1e400) = Ok (10 ^ 400)
  ∧ wei_to_eth (PyStr digits_1e400) = infinity.
Proof. by vm_compute. Qed.

End ConverterClaims.

(** ** Aggregation (graph/graph_builder.py, lines 6-30) *)

Section AggregationClaims.
Import Py GraphBuilder DictFacts TransferFacts AggregateFacts.
#[local] Open Scope string_scope.
#[local] Open Scope Z_scope.

(** C6.  A record whose [from] or [to] is absent, null or empty is skipped:
    the graph is the one obtained from the sequence without that record,
    for the aggregation and for the whole builder. *)
Theorem skip_record_without_endpoint
    (before after : list Tx) (tx : Tx) (focus_addr : option string) (m : Z) :
  falsy (tx_from tx) = true ∨ falsy (tx_to tx) = true →
  aggregate (before ++ tx :: after) = aggregate (before ++ after)
  ∧ build_graph_from_txlist (before ++ tx :: after) focus_addr m
    = build_graph_from_txlist (before ++ after) focus_addr m.
Proof.
  intros H.
  assert (E : aggregate (before ++ tx :: after) = aggregate (before ++ after)).
  { rewrite !aggregate_app. simpl. by rewrite (step_skip _ _ H). }
  split; [done|]. unfold build_graph_from_txlist. by rewrite E.
Qed.

Lemma skip_record_without_endpoint_witness :
  aggregate (drizzle ++ no_receiver :: star_lower)
  = aggregate (drizzle ++ star_lower).
Proof.
  apply (skip_record_without_endpoint drizzle star_lower no_receiver None 300).
  right. reflexivity.
Defined.

(** C7, as the code has it.  A record with both addresses and a value that
    neither [int()] nor [float()] accepts is not skipped: it is folded in
    as a transfer of [0.0], so both nodes and the edge exist afterwards. *)
Theorem non_numeric_value_counts_as_zero
    (G : Graph) (tx : Tx) (f t : string) (v : Py.value) (e1 e2 : exn) :
  tx_from tx = Some f → tx_to tx = Some t → f ≠ "" → t ≠ "" →
  tx_value tx = Some v →
  builtin_int v = Raise e1 → builtin_float v = Raise e2 →
  step G tx = add_transfer G f t 0
  ∧ Nx.has_node (step G tx) f = true
  ∧ Nx.has_node (step G tx) t = true
  ∧ Nx.has_edge (step G tx) f t = true.
Proof.
  intros Hf Ht Hfe Hte Hv Hi Hfl.
  assert (E : step G tx = add_transfer G f t 0).
  { rewrite step_transfer. unfold transfer_of, amount. rewrite Hf, Ht, Hv.
    rewrite decide_False by tauto. simpl.
    unfold wei_to_eth, DesktopApp.wei_to_eth, DesktopApp.try_return, bind.
    by rewrite Hi, Hfl. }
  rewrite E. split_and!; [done| | |].
  - apply has_node_attr. rewrite node_attr_add_transfer.
    rewrite decide_True by auto. done.
  - apply has_node_attr. rewrite node_attr_add_transfer.
    rewrite decide_True by auto. done.
  - unfold Nx.has_edge. apply has_true.
    fold (Nx.edge_attr (add_transfer G f t 0) f t).
    rewrite edge_attr_add_transfer, decide_True by done. done.
Qed.

Lemma non_numeric_value_counts_as_zero_witness :
  step Nx.empty not_a_number = add_transfer Nx.empty "A" "B" 0
  ∧ Nx.has_node (step Nx.empty not_a_number) "A" = true
  ∧ Nx.has_node (step Nx.empty not_a_number) "B" = true
  ∧ Nx.has_edge (step Nx.empty not_a_number) "A" "B" = true.
Proof.
  apply (non_numeric_value_counts_as_zero Nx.empty not_a_number "A" "B"
           (PyStr "abc") ValueError ValueError); by vm_compute.
Defined.

(** C7 fails as stated: the record with value ["abc"] creates the nodes [A]
    and [B] and the edge between them. *)
Lemma non_numeric_value_counts_as_zero_counterexample :
  builtin_int (PyStr "abc") = Raise ValueError
  ∧ builtin_float (PyStr "abc") = Raise ValueError
  ∧ Nx.has_node (build_graph_from_txlist [not_a_number] None 300) "A" = true
  ∧ Nx.has_node (build_graph_from_txlist [not_a_number] None 300) "B" = true
  ∧ Nx.has_edge (build_graph_from_txlist [not_a_number] None 300) "A" "B" = true
  ∧ Nx.number_of_nodes (build_graph_from_txlist [] None 300) = 0.
Proof. by vm_compute. Qed.

End AggregationClaims.

(** ** Threshold filter (desktop_app.py, lines 74-97) *)

Module DesktopFacts.
Import Py DesktopApp DictFacts.

Lemma build_app txs1 txs2 min :
  build_graph_from_txlist (txs1 ++ txs2) min =
    fold_left (step min) txs2 (build_graph_from_txlist txs1 min).
Proof. unfold build_graph_from_txlist. by rewrite fold_left_app. Qed.

Lemma step_below_threshold min (G : Graph) tx :
  (amount tx <? min)%float = true → step min G tx = G.
Proof.
  unfold step, amount. intros ->.
  by destruct (falsy (tx_from tx) || falsy (tx_to tx)).
Qed.

Lemma desktop_ensure_node_nonneg (G : Graph) n :
  totals_nonneg G → totals_nonneg (ensure_node G n).
Proof.
  unfold ensure_node. destruct (Nx.has_node G n); [done|].
  intros [Hn He]. split; [|done]. simpl.
  apply Forall_set; [|done]. intros ?. by vm_compute.
Qed.

(** One iteration keeps the totals at or above zero when the amount of the
    record is. *)
Lemma desktop_step_nonneg min (G : Graph) tx :
  (0 <=? amount tx)%float = true →
  totals_nonneg G → totals_nonneg (step min G tx).
Proof.
  intros Ha HG. unfold step. fold (amount tx).
  destruct (falsy (tx_from tx) || falsy (tx_to tx)); [done|].
  destruct (amount tx <? min)%float; [done|].
  destruct (tx_from tx) as [f|], (tx_to tx) as [t|]; try done.
  pose proof (desktop_ensure_node_nonneg _ t (desktop_ensure_node_nonneg _ f HG)) as [Hn He].
  set (G2 := ensure_node (ensure_node G f) t) in *.
  assert (Hn' : Forall (λ kv, (0 <=? total_in kv.2)%float = true
                              ∧ (0 <=? total_out kv.2)%float = true)
            (Dict.alter (λ d, {| total_in := total_in d; total_out := total_out d;
                                 tx_in := tx_in d + 1; tx_out := tx_out d |})
               (Dict.alter (λ d, {| total_in := (total_in d + amount tx)%float;
                                    total_out := total_out d;
                                    tx_in := tx_in d; tx_out := tx_out d |})
                  (Dict.alter (λ d, {| total_in := total_in d;
                                       total_out := total_out d;
                                       tx_in := tx_in d; tx_out := tx_out d + 1 |})
                     (Dict.alter (λ d, {| total_in := total_in d;
                                          total_out := (total_out d + amount tx)%float;
                                          tx_in := tx_in d; tx_out := tx_out d |})
                        (Nx._node G2) f) f) t) t)).
  { repeat (apply Forall_alter;
            [intros k [i o ti to'] [Hi Ho]; simpl in *; split;
             auto using FloatFacts.add_nonneg|]).
    done. }
  destruct (Nx.has_edge _ f t); split; simpl; try done.
  - repeat (apply Forall_alter;
            [intros k [tv c] [Hv Hc]; simpl in *; split;
             auto using FloatFacts.add_nonneg with lia|]).
    done.
  - apply Forall_set; [|done]. intros ?. simpl. split; [done|lia].
Qed.

Lemma build_nonneg txs min :
  Forall (λ tx, (0 <=? amount tx)%float = true) txs →
  totals_nonneg (build_graph_from_txlist txs min).
Proof.
  induction txs as [|tx txs IH] using rev_ind; intros H.
  - split; constructor.
  - apply Forall_app in H as [H1 H2]. apply Forall_cons in H2 as [H2 _].
    rewrite build_app. simpl. apply desktop_step_nonneg; auto.
Qed.
End DesktopFacts.

Section ThresholdClaims.
Import Py DesktopApp DesktopFacts.
#[local] Open Scope string_scope.
#[local] Open Scope Z_scope.

(** C8.  With a minimum amount, a record whose converted amount is strictly
    below it is skipped at the data level: the graph, with all its totals
    and transfer counts, is the one built from the sequence without that
    record. *)
Theorem threshold_filter
    (before after : list Tx) (tx : Tx) (min_value_eth : float) :
  (amount tx <? min_value_eth)%float = true →
  build_graph_from_txlist (before ++ tx :: after) min_value_eth
  = build_graph_from_txlist (before ++ after) min_value_eth.
Proof.
  intros H. rewrite !build_app. simpl. by rewrite (step_below_threshold _ _ _ H).
Qed.

(** Minimum 1.0: the record of 0.5 ether between those of 2 and 1.5 is
    excluded. *)
Lemma threshold_filter_witness :
  amount (transfer "A" "B" "500000000000000000") = 0.5%float
  ∧ build_graph_from_txlist mixed_amounts 1
    = build_graph_from_txlist
        [transfer "A" "B" "2000000000000000000";
         transfer "B" "C" "1500000000000000000"] 1
  ∧ Nx.edge_attr (build_graph_from_txlist mixed_amounts 1) "A" "B"
    = Some {| total_value := 2; tx_count := 1 |}.
Proof.
  split; [by vm_compute|]. split; [|by vm_compute].
  apply (threshold_filter [transfer "A" "B" "2000000000000000000"]
           [transfer "B" "C" "1500000000000000000"]
           (transfer "A" "B" "500000000000000000") 1).
  by vm_compute.
Defined.

End ThresholdClaims.

(** ** Sign of the totals *)

Module NonnegFacts.
Import Py GraphBuilder DictFacts TransferFacts AggregateFacts TrimFacts.

(** A missing value counts as zero in both builders. *)
Lemma amount_desktop tx : DesktopApp.amount tx = amount tx.
Proof.
  unfold DesktopApp.amount, amount, wei_to_eth.
  by destruct (tx_value tx).
Qed.

Lemma Forall_keep {A} (P : A → Prop) (Q : A → Prop) `{∀ x, Decision (Q x)}
    (l : list A) :
  Forall P l → Forall P (filter Q l).
Proof.
  rewrite !Forall_forall. intros HP x [_ Hx]%list_elem_of_filter. auto.
Qed.

Lemma ensure_node_nonneg (G : Graph) n :
  totals_nonneg G → totals_nonneg (ensure_node G n).
Proof.
  unfold ensure_node. destruct (Nx.has_node G n); [done|].
  intros [Hn He]. split; [|done]. simpl.
  apply Forall_set; [|done]. intros ?. by vm_compute.
Qed.

Lemma add_transfer_nonneg (G : Graph) f t a :
  (0 <=? a)%float = true →
  totals_nonneg G → totals_nonneg (add_transfer G f t a).
Proof.
  intros Ha HG.
  pose proof (ensure_node_nonneg _ t (ensure_node_nonneg _ f HG)) as [Hn _].
  destruct HG as [_ He].
  split.
  - rewrite add_transfer_node.
    repeat (apply Forall_alter;
            [intros k [i o] [Hi Ho]; simpl in *; split;
             auto using FloatFacts.add_nonneg|]).
    done.
  - rewrite add_transfer_adj. destruct (Dict.has _ (f, t)).
    + apply Forall_alter; [|done].
      intros k [tv] Hv. simpl in *. by apply FloatFacts.add_nonneg.
    + apply Forall_set; [|done]. by intros ?.
Qed.

Lemma transfer_of_amount tx f t a :
  transfer_of tx = Some (f, t, a) → a = amount tx.
Proof.
  unfold transfer_of. destruct (tx_from tx), (tx_to tx); try done.
  case_decide; [done|]. congruence.
Qed.

Lemma aggregate_nonneg txs :
  Forall (λ tx, (0 <=? amount tx)%float = true) txs →
  totals_nonneg (aggregate txs).
Proof.
  induction txs as [|tx txs IH] using rev_ind; intros H.
  - split; constructor.
  - apply Forall_app in H as [H1 H2]. apply Forall_cons in H2 as [H2 _].
    rewrite aggregate_snoc, step_transfer.
    destruct (transfer_of tx) as [[[f t] a]|] eqn:E; [|auto].
    apply transfer_of_amount in E as ->. apply add_transfer_nonneg; auto.
Qed.

Lemma bound_nonneg (G : Graph) fo m :
  totals_nonneg G → totals_nonneg (bound G fo m).
Proof.
  intros [Hn He]. destruct (trim_active G fo m) eqn:Ha.
  - rewrite (bound_active _ _ _ Ha). cbv zeta.
    split; simpl; by apply Forall_keep.
  - by rewrite (bound_inactive _ _ _ Ha).
Qed.
End NonnegFacts.

Section InvariantClaims.
Import Py GraphBuilder AggregateFacts NonnegFacts.
#[local] Open Scope string_scope.
#[local] Open Scope Z_scope.

(** C9, as the code has it.  When the converted amount of every record is
    at least zero, every node of the built graph has [total_in] and
    [total_out] at least zero and every edge has [total_value] at least
    zero, in both builders; in the builder that counts transfers every
    edge has a [tx_count] of at least one. *)
Theorem totals_nonneg_for_nonneg_amounts
    (txs : list Tx) (focus_addr : option string) (m : Z)
    (min_value_eth : float) :
  Forall (λ tx, (0 <=? amount tx)%float = true) txs →
  totals_nonneg (build_graph_from_txlist txs focus_addr m)
  ∧ DesktopApp.totals_nonneg
      (DesktopApp.build_graph_from_txlist txs min_value_eth).
Proof.
  intros H. split.
  - by apply bound_nonneg, aggregate_nonneg.
  - apply DesktopFacts.build_nonneg.
    eapply Forall_impl; [exact H|]. intros tx. by rewrite amount_desktop.
Qed.

Lemma totals_nonneg_for_nonneg_amounts_witness :
  totals_nonneg (build_graph_from_txlist drizzle (Some "b") 1)
  ∧ DesktopApp.totals_nonneg (DesktopApp.build_graph_from_txlist drizzle 0).
Proof.
  apply (totals_nonneg_for_nonneg_amounts drizzle (Some "b") 1 0).
  repeat constructor.
Defined.

(** C9 fails as stated: a record that moves minus one ether leaves the
    sender with a [total_out] of [-1.0] and the edge with a [total_value]
    of [-1.0]. *)
Lemma totals_nonneg_for_nonneg_amounts_counterexample :
  Nx.node_attr (build_graph_from_txlist [minus_one] None 300) "A"
  = Some {| total_in := 0; total_out := -1 |}
  ∧ Nx.edge_attr (build_graph_from_txlist [minus_one] None 300) "A" "B"
    = Some {| total_value := -1 |}
  ∧ (0 <=? -1)%float = false.
Proof. by vm_compute. Qed.

(** C4, as the code has it.  Permuting the records leaves the node set and
    the edge set unchanged.  Each total is the left-to-right binary64 sum
    of the amounts the records contribute to it, and a permutation of the
    records permutes these amounts: the totals of the two graphs add up
    the same numbers, in a possibly different order. *)
Theorem aggregation_order (txs txs' : list Tx) :
  txs ≡ₚ txs' →
  let G := aggregate txs in
  let G' := aggregate txs' in
  let ts := transfers txs in
  let ts' := transfers txs' in
  (∀ n, Nx.has_node G n = Nx.has_node G' n)
  ∧ (∀ u v, Nx.has_edge G u v = Nx.has_edge G' u v)
  ∧ (∀ n, Nx.has_node G n = true →
       Nx.node_attr G n = Some {| total_in := fsum 0 (received ts n);
                                  total_out := fsum 0 (sent ts n) |}
       ∧ Nx.node_attr G' n = Some {| total_in := fsum 0 (received ts' n);
                                     total_out := fsum 0 (sent ts' n) |}
       ∧ received ts n ≡ₚ received ts' n
       ∧ sent ts n ≡ₚ sent ts' n)
  ∧ (∀ u v, Nx.has_edge G u v = true →
       ∃ a l a' l',
         moved ts u v = a :: l ∧ moved ts' u v = a' :: l'
         ∧ a :: l ≡ₚ a' :: l'
         ∧ Nx.edge_attr G u v = Some {| total_value := fsum a l |}
         ∧ Nx.edge_attr G' u v = Some {| total_value := fsum a' l' |}).
Proof.
  intros Hp G G' ts ts'.
  assert (Hts : ts ≡ₚ ts') by (unfold ts, ts', transfers; by rewrite Hp).
  assert (Hend : ∀ n, n ∈ endpoints ts ↔ n ∈ endpoints ts').
  { intros n. unfold endpoints. by rewrite Hts. }
  assert (Hnode : ∀ txs0 n,
    Nx.has_node (aggregate txs0) n = true ↔ n ∈ endpoints (transfers txs0)).
  { intros txs0 n. unfold Nx.has_node.
    rewrite DictFacts.has_keys, node_keys_aggregate.
    apply FirstSeenFacts.elem_of_first_seen. }
  assert (Hedge : ∀ txs0 u v,
    Nx.has_edge (aggregate txs0) u v = true ↔ moved (transfers txs0) u v ≠ []).
  { intros txs0 u v. unfold Nx.has_edge. rewrite DictFacts.has_true.
    fold (Nx.edge_attr (aggregate txs0) u v). rewrite edge_attr_aggregate.
    destruct (moved _ u v); split; try done; by intros [? ?]. }
  assert (Hmoved : ∀ u v, moved ts u v ≡ₚ moved ts' u v).
  { intros u v. unfold moved. by rewrite Hts. }
  split_and!.
  - intros n. apply eq_true_iff_eq. unfold G, G'. rewrite !Hnode. apply Hend.
  - intros u v. apply eq_true_iff_eq. unfold G, G'. rewrite !Hedge.
    pose proof (Hmoved u v) as Hm. fold ts ts'.
    split; intros Hne E; apply Hne; rewrite E in Hm;
      [by apply Permutation_nil_r in Hm | by apply Permutation_nil_l in Hm].
  - intros n Hn. apply Hnode in Hn. fold ts in Hn.
    unfold G, G'. rewrite !node_attr_aggregate. cbv zeta. fold ts ts'.
    rewrite !decide_True by (auto; by apply Hend).
    split_and!; try done; unfold received, sent; by rewrite Hts.
  - intros u v He. apply Hedge in He. fold ts in He.
    pose proof (Hmoved u v) as Hm.
    unfold G, G'. rewrite !edge_attr_aggregate. fold ts ts'.
    destruct (moved ts u v) as [|a l]; [done|].
    destruct (moved ts' u v) as [|a' l'].
    { by apply Permutation_nil_r in Hm. }
    by exists a, l, a', l'.
Qed.

Lemma aggregation_order_witness :
  Nx.has_node (aggregate drizzle) "B" = Nx.has_node (aggregate (reverse drizzle)) "B"
  ∧ received (transfers drizzle) "B" ≡ₚ received (transfers (reverse drizzle)) "B".
Proof.
  destruct (aggregation_order drizzle (reverse drizzle)) as (Hn & _ & Ht & _).
  { symmetry. apply reverse_Permutation. }
  split; [apply Hn|]. apply (Ht "B"). by vm_compute.
Defined.

(** C4 fails as stated: 0.1 + 0.2 + 0.3 and 0.3 + 0.2 + 0.1 differ in
    binary64, so the receiver's [total_in] depends on the order of the
    three records. *)
Lemma aggregation_order_counterexample :
  drizzle ≡ₚ reverse drizzle
  ∧ Nx.node_attr (aggregate drizzle) "B"
    = Some {| total_in := 0.6000000000000001; total_out := 0 |}
  ∧ Nx.node_attr (aggregate (reverse drizzle)) "B"
    = Some {| total_in := 0.6; total_out := 0 |}
  ∧ (0.6 <? 0.6000000000000001)%float = true.
Proof.
  split; [symmetry; apply reverse_Permutation|]. by vm_compute.
Qed.

End InvariantClaims.

(** * Further properties of the code *)

(** ** The trim and the aggregation of graph_builder.py *)

Module GraphExtraFacts.
Import Py GraphBuilder DictFacts FirstSeenFacts TransferFacts AggregateFacts
  TrimFacts.

Lemma length_first_seen {A} `{EqDecision A} (l : list A) :
  (length (first_seen l) ≤ length l)%nat.
Proof.
  induction l as [|y l IH] using rev_ind; [done|].
  rewrite first_seen_snoc, length_app. simpl.
  case_decide; [lia|]. rewrite length_app. simpl. lia.
Qed.

Lemma length_transfers txs : (length (transfers txs) ≤ length txs)%nat.
Proof.
  unfold transfers. induction txs as [|tx txs IH]; csimpl; [done|].
  destruct (transfer_of tx); simpl; lia.
Qed.

Lemma length_endpoints ts : length (endpoints ts) = (2 * length ts)%nat.
Proof.
  unfold endpoints. induction ts as [|t ts IH]; csimpl; [done|].
  rewrite IH. lia.
Qed.

Lemma elem_of_slice_to {A} (l : list A) k x : x ∈ slice_to l k → x ∈ l.
Proof. unfold slice_to. destruct (0 <=? k); apply subseteq_take. Qed.

Lemma predecessors_has_edge (G : Graph) x u :
  u ∈ Nx.predecessors G x → Nx.has_edge G u x = true.
Proof.
  unfold Nx.predecessors, Nx.has_edge.
  intros ([[u' v'] d] & Hin & Hp)%list_elem_of_omap. simpl in Hp.
  case_decide; simplify_eq/=.
  apply has_keys. apply list_elem_of_fmap. by exists (u, x, d).
Qed.

Lemma successors_has_edge (G : Graph) x v :
  v ∈ Nx.successors G x → Nx.has_edge G x v = true.
Proof.
  unfold Nx.successors, Nx.has_edge.
  intros ([[u' v'] d] & Hin & Hp)%list_elem_of_omap. simpl in Hp.
  case_decide; simplify_eq/=.
  apply has_keys. apply list_elem_of_fmap. by exists (x, v, d).
Qed.

Lemma has_edge_aggregate txs u v :
  Nx.has_edge (aggregate txs) u v = true ↔ (u, v) ∈ (transfers txs).*1.
Proof.
  unfold Nx.has_edge. rewrite has_keys, adj_keys_aggregate.
  apply elem_of_first_seen.
Qed.

Lemma has_node_aggregate txs n :
  Nx.has_node (aggregate txs) n = true ↔ n ∈ endpoints (transfers txs).
Proof.
  unfold Nx.has_node. rewrite has_keys, node_keys_aggregate.
  apply elem_of_first_seen.
Qed.

Lemma has_node_subgraph (G : Graph) (keep : gset string) n :
  Nx.has_node (Nx.subgraph_copy G keep) n = true ↔
    n ∈ keep ∧ Nx.has_node G n = true.
Proof.
  rewrite !has_node_attr, node_attr_subgraph.
  case_decide; [tauto|]. split; [by intros [? ?]|tauto].
Qed.

Lemma has_edge_attr (G : Graph) u v :
  Nx.has_edge G u v = true ↔ is_Some (Nx.edge_attr G u v).
Proof. apply has_true. Qed.

Lemma has_edge_subgraph (G : Graph) (keep : gset string) u v :
  Nx.has_edge (Nx.subgraph_copy G keep) u v = true ↔
    (u ∈ keep ∧ v ∈ keep) ∧ Nx.has_edge G u v = true.
Proof.
  rewrite !has_edge_attr, edge_attr_subgraph.
  case_decide; [tauto|]. split; [by intros [? ?]|tauto].
Qed.
End GraphExtraFacts.

Section GraphExtras.
Import Py GraphBuilder DictFacts FirstSeenFacts TransferFacts AggregateFacts
  TrimFacts GraphExtraFacts.
#[local] Open Scope string_scope.
#[local] Open Scope Z_scope.

(** X1.  The trim only removes: whatever the graph, the focus and the
    budget, a node or an edge of the result is a node or an edge of the
    input with the same attributes, and the result has no more nodes. *)
Theorem trim_only_removes (G : Graph) (focus_addr : option string) (m : Z) :
  (∀ n d, Nx.node_attr (bound G focus_addr m) n = Some d →
          Nx.node_attr G n = Some d)
  ∧ (∀ u v d, Nx.edge_attr (bound G focus_addr m) u v = Some d →
              Nx.edge_attr G u v = Some d)
  ∧ Nx.number_of_nodes (bound G focus_addr m) ≤ Nx.number_of_nodes G.
Proof.
  destruct (trim_active G focus_addr m) eqn:Ha.
  - rewrite (bound_active _ _ _ Ha). cbv zeta. split_and!.
    + intros n d. rewrite node_attr_subgraph. by case_decide.
    + intros u v d. rewrite edge_attr_subgraph. by case_decide.
    + unfold Nx.number_of_nodes, Nx.subgraph_copy. simpl.
      apply Nat2Z.inj_le, length_filter.
  - rewrite (bound_inactive _ _ _ Ha). split_and!; auto. lia.
Qed.

(** X2.  When the trim runs, the lower-cased focus stays in the result
    with its attributes, and every other node of the result is joined to
    it by an edge of the input, in one direction or the other. *)
Theorem trim_keeps_focus_and_neighbours (G : Graph) (f : string) (m : Z) :
  m < Nx.number_of_nodes G → f ≠ "" → Nx.has_node G (lower f) = true →
  Nx.node_attr (bound G (Some f) m) (lower f) = Nx.node_attr G (lower f)
  ∧ (∀ n, Nx.has_node (bound G (Some f) m) n = true →
          n = lower f ∨ Nx.has_edge G n (lower f) = true
          ∨ Nx.has_edge G (lower f) n = true).
Proof.
  intros Hover Hf Hx.
  assert (Ha : trim_active G (Some f) m = true).
  { apply trim_active_true. split_and!; [done| |done].
    by apply bool_decide_eq_false_2. }
  rewrite (bound_active _ _ _ Ha). cbv zeta. simpl default. split.
  - rewrite node_attr_subgraph, decide_True; [done|].
    apply elem_of_list_to_set. left.
  - intros n [Hn _]%has_node_subgraph.
    apply elem_of_list_to_set, elem_of_cons in Hn as [->|Hn]; [by left|].
    right. apply elem_of_slice_to, elem_of_app in Hn as [Hn|Hn].
    + left. by apply predecessors_has_edge.
    + right. by apply successors_has_edge.
Qed.

Lemma trim_keeps_focus_and_neighbours_witness :
  Nx.node_attr (bound (aggregate star_lower) (Some "X") 0) "x"
  = Nx.node_attr (aggregate star_lower) "x".
Proof.
  apply (trim_keeps_focus_and_neighbours (aggregate star_lower) "X" 0);
    by vm_compute.
Defined.

(** X3.  With a budget of at least one and a focus whose lower-case form
    is a node, the built graph never has more than [max_nodes] nodes. *)
Theorem build_within_budget (txs : list Tx) (f : string) (m : Z) :
  1 ≤ m → f ≠ "" → Nx.has_node (aggregate txs) (lower f) = true →
  Nx.number_of_nodes (build_graph_from_txlist txs (Some f) m) ≤ m.
Proof.
  intros Hm Hf Hx. unfold build_graph_from_txlist.
  destruct (trim_active (aggregate txs) (Some f) m) eqn:Ha.
  - by apply bound_within_budget.
  - rewrite (bound_inactive _ _ _ Ha).
    destruct (decide (m < Nx.number_of_nodes (aggregate txs))) as [Hlt|]; [|lia].
    assert (trim_active (aggregate txs) (Some f) m = true); [|congruence].
    apply trim_active_true. split_and!; [done| |done].
    by apply bool_decide_eq_false_2.
Qed.

Lemma build_within_budget_witness :
  Nx.number_of_nodes
    (build_graph_from_txlist Builders.star_with_loop (Some "x") 3) ≤ 3.
Proof.
  apply (build_within_budget Builders.star_with_loop "x" 3); by vm_compute.
Defined.

(** X4.  In the graph the builder returns, trimmed or not, every edge
    joins two nodes of that graph. *)
Theorem edges_join_nodes
    (txs : list Tx) (focus_addr : option string) (m : Z) (u v : string) :
  Nx.has_edge (build_graph_from_txlist txs focus_addr m) u v = true →
  Nx.has_node (build_graph_from_txlist txs focus_addr m) u = true
  ∧ Nx.has_node (build_graph_from_txlist txs focus_addr m) v = true.
Proof.
  assert (Hagg : Nx.has_edge (aggregate txs) u v = true →
                 Nx.has_node (aggregate txs) u = true
                 ∧ Nx.has_node (aggregate txs) v = true).
  { rewrite has_edge_aggregate, !has_node_aggregate.
    intros ([[u' v'] a] & E & Hin)%list_elem_of_fmap. simpl in E.
    injection E as -> ->.
    split; apply elem_of_endpoints; exists (u', v', a); auto. }
  unfold build_graph_from_txlist.
  destruct (trim_active (aggregate txs) focus_addr m) eqn:Ha.
  - rewrite (bound_active _ _ _ Ha). cbv zeta.
    rewrite has_edge_subgraph, !has_node_subgraph. tauto.
  - by rewrite (bound_inactive _ _ _ Ha).
Qed.

Lemma edges_join_nodes_witness :
  Nx.has_node (build_graph_from_txlist star_lower (Some "x") 3) "p1" = true
  ∧ Nx.has_node (build_graph_from_txlist star_lower (Some "x") 3) "x" = true.
Proof.
  apply (edges_join_nodes star_lower (Some "x") 3 "p1" "x"). by vm_compute.
Defined.

(** X5.  One record never removes anything and touches only its own end
    points and its own edge: nodes and edges present before are present
    after, and the attributes of every other node and every other edge are
    unchanged. *)
Theorem record_touches_only_its_endpoints (G : Graph) (tx : Tx) :
  (∀ n, Nx.has_node G n = true → Nx.has_node (step G tx) n = true)
  ∧ (∀ u v, Nx.has_edge G u v = true → Nx.has_edge (step G tx) u v = true)
  ∧ (∀ n, tx_from tx ≠ Some n → tx_to tx ≠ Some n →
          Nx.node_attr (step G tx) n = Nx.node_attr G n)
  ∧ (∀ u v, (tx_from tx, tx_to tx) ≠ (Some u, Some v) →
            Nx.edge_attr (step G tx) u v = Nx.edge_attr G u v).
Proof.
  rewrite step_transfer.
  destruct (transfer_of tx) as [[[f t] a]|] eqn:E; [|by split_and!].
  assert (tx_from tx = Some f ∧ tx_to tx = Some t) as [Ef Et].
  { unfold transfer_of in E.
    destruct (tx_from tx), (tx_to tx); try done.
    case_decide; [done|]. by simplify_eq. }
  rewrite Ef, Et. split_and!.
  - intros n. rewrite !has_node_attr, node_attr_add_transfer.
    case_decide; [by eauto|done].
  - intros u v. rewrite !has_edge_attr, edge_attr_add_transfer.
    case_decide; [by eauto|done].
  - intros n Hf Ht. rewrite node_attr_add_transfer, decide_False; [done|].
    intros [-> | ->]; congruence.
  - intros u v Hne. rewrite edge_attr_add_transfer, decide_False; [done|].
    intros [= -> ->]. congruence.
Qed.

(** X6.  Parallel transfers collapse: the aggregated graph lists every
    address once and every ordered pair once, so it has at most two nodes
    and at most one edge per record. *)
Theorem aggregated_graph_size (txs : list Tx) :
  NoDup (Dict.keys (Nx._node (aggregate txs)))
  ∧ NoDup (Dict.keys (Nx._adj (aggregate txs)))
  ∧ Nx.number_of_nodes (aggregate txs) ≤ 2 * Z.of_nat (length txs)
  ∧ Builders.number_of_edges (aggregate txs) ≤ Z.of_nat (length txs).
Proof.
  pose proof (length_transfers txs) as Hts.
  split_and!.
  - apply NoDup_node_keys.
  - rewrite adj_keys_aggregate. apply NoDup_first_seen.
  - unfold Nx.number_of_nodes.
    rewrite <- (length_fmap fst). change (fst <$> ?d) with (Dict.keys d).
    rewrite node_keys_aggregate.
    pose proof (length_first_seen (endpoints (transfers txs))) as H.
    rewrite length_endpoints in H. lia.
  - unfold Builders.number_of_edges.
    rewrite <- (length_fmap fst). change (fst <$> ?d) with (Dict.keys d).
    rewrite adj_keys_aggregate.
    pose proof (length_first_seen (transfers txs).*1) as H.
    rewrite length_fmap in H. lia.
Qed.

End GraphExtras.

(** ** The builder of desktop_app.py *)

Module DesktopExtraFacts.
Import Py DesktopApp DictFacts Builders.

Section DictMore.
Context {K V : Type} `{EqDecision K}.
Implicit Types (d : Dict.t K V) (k : K) (v : V).

Lemma has_set d k v k' :
  Dict.has (Dict.set d k v) k' = if decide (k = k') then true else Dict.has d k'.
Proof. unfold Dict.has. rewrite get_set. by case_decide. Qed.

Lemma has_alter f d k k' : Dict.has (Dict.alter f d k) k' = Dict.has d k'.
Proof.
  unfold Dict.has. rewrite get_alter.
  case_decide; by destruct (Dict.get d k').
Qed.

Lemma Zsum_app l1 l2 : Zsum (l1 ++ l2) = Zsum l1 + Zsum l2.
Proof. unfold Zsum. induction l1 as [|z l1 IH]; simpl; lia. Qed.

Lemma Zsum_alter (g : V → Z) f d k δ :
  (∀ v, g (f v) = g v + δ) → Dict.has d k = true →
  Zsum ((λ kv, g kv.2) <$> Dict.alter f d k)
  = Zsum ((λ kv, g kv.2) <$> d) + δ.
Proof.
  intros Hg. unfold Dict.has.
  induction d as [|[k0 v0] d IH]; simpl; [done|].
  case_decide; csimpl; intros Hk.
  - rewrite Hg. unfold Zsum. simpl. lia.
  - specialize (IH Hk). unfold Zsum in *. simpl. lia.
Qed.

Lemma Zsum_alter_same (g : V → Z) f d k :
  (∀ v, g (f v) = g v) →
  Zsum ((λ kv, g kv.2) <$> Dict.alter f d k) = Zsum ((λ kv, g kv.2) <$> d).
Proof.
  intros Hg. induction d as [|[k0 v0] d IH]; simpl; [done|].
  case_decide; csimpl; unfold Zsum in *; simpl; rewrite ?Hg; lia.
Qed.

Lemma Zsum_set_new (g : V → Z) d k v :
  Dict.has d k = false →
  Zsum ((λ kv, g kv.2) <$> Dict.set d k v)
  = Zsum ((λ kv, g kv.2) <$> d) + g v.
Proof.
  unfold Dict.has.
  induction d as [|[k0 v0] d IH]; simpl; [unfold Zsum; simpl; lia|].
  case_decide; csimpl; intros Hk; [done|].
  specialize (IH Hk). unfold Zsum in *. simpl. lia.
Qed.

(** Mapping the values of a dictionary commutes with its operations. *)
Lemma get_fmap {W} (h : V → W) d k :
  Dict.get (prod_map id h <$> d) k = h <$> Dict.get d k.
Proof.
  induction d as [|[k0 v0] d IH]; csimpl; [done|]. by case_decide.
Qed.

Lemma has_fmap {W} (h : V → W) d k :
  Dict.has (prod_map id h <$> d) k = Dict.has d k.
Proof. unfold Dict.has. rewrite get_fmap. by destruct (Dict.get d k). Qed.

Lemma set_fmap {W} (h : V → W) d k v :
  prod_map id h <$> Dict.set d k v = Dict.set (prod_map id h <$> d) k (h v).
Proof.
  induction d as [|[k0 v0] d IH]; csimpl; [done|].
  case_decide; csimpl; [done|]. by rewrite IH.
Qed.

Lemma alter_fmap {W} (h : V → W) f f' d k :
  (∀ v, h (f v) = f' (h v)) →
  prod_map id h <$> Dict.alter f d k = Dict.alter f' (prod_map id h <$> d) k.
Proof.
  intros Hf. induction d as [|[k0 v0] d IH]; csimpl; [done|].
  case_decide; csimpl; [by rewrite Hf|]. by rewrite IH.
Qed.

Lemma alter_fmap_same {W} (h : V → W) f d k :
  (∀ v, h (f v) = h v) →
  prod_map id h <$> Dict.alter f d k = prod_map id h <$> d.
Proof.
  intros Hf. induction d as [|[k0 v0] d IH]; csimpl; [done|].
  case_decide; csimpl; [by rewrite Hf|]. by rewrite IH.
Qed.
End DictMore.

Lemma kept_false_step min (G : Graph) tx : kept min tx = false → step min G tx = G.
Proof.
  unfold kept, step, amount.
  destruct (falsy (tx_from tx) || falsy (tx_to tx)); [done|]. simpl.
  by intros ->%negb_false_iff.
Qed.

Lemma ensure_node_has (G : Graph) n k :
  Nx.has_node (ensure_node G n) k =
    if decide (n = k) then true else Nx.has_node G k.
Proof.
  unfold ensure_node, Nx.has_node.
  destruct (Dict.has (Nx._node G) n) eqn:Hn; simpl.
  - case_decide; by subst.
  - apply has_set.
Qed.

Lemma ensure_node_sum (g : node_attr → Z) (G : Graph) n :
  g {| total_in := 0; total_out := 0; tx_in := 0; tx_out := 0 |} = 0 →
  Zsum ((λ kv, g kv.2) <$> Nx._node (ensure_node G n))
  = Zsum ((λ kv, g kv.2) <$> Nx._node G).
Proof.
  intros Hg. unfold ensure_node, Nx.has_node.
  destruct (Dict.has (Nx._node G) n) eqn:Hn; [done|]. simpl.
  rewrite Zsum_set_new by done. lia.
Qed.

(** What a record that is kept does to the three counters. *)
Lemma kept_step_counts min (G : Graph) tx :
  kept min tx = true →
  sum_tx_count (step min G tx) = sum_tx_count G + 1
  ∧ sum_tx_in (step min G tx) = sum_tx_in G + 1
  ∧ sum_tx_out (step min G tx) = sum_tx_out G + 1.
Proof.
  unfold kept, step. fold (amount tx).
  intros [Hf Hb]%andb_true_iff.
  apply negb_true_iff in Hf. apply negb_true_iff in Hb. rewrite Hf, Hb.
  destruct (tx_from tx) as [f|], (tx_to tx) as [t|]; try done;
    [|by rewrite orb_true_r in Hf].
  set (G2 := ensure_node (ensure_node G f) t).
  assert (Hhf : Dict.has (Nx._node G2) f = true).
  { unfold G2. fold (Nx.has_node (ensure_node (ensure_node G f) t) f).
    rewrite !ensure_node_has. repeat case_decide; congruence. }
  assert (Hht : Dict.has (Nx._node G2) t = true).
  { unfold G2. fold (Nx.has_node (ensure_node (ensure_node G f) t) t).
    rewrite ensure_node_has. by rewrite decide_True. }
  assert (Hadj : Nx._adj G2 = Nx._adj G).
  { unfold G2, ensure_node. by repeat destruct (Nx.has_node _ _). }
  split_and!.
  - unfold sum_tx_count. destruct (Nx.has_edge _ f t) eqn:He; simpl.
    + unfold Nx.has_edge in He. simpl in He.
      rewrite (Zsum_alter tx_count _ _ _ 1); [|done|by rewrite has_alter].
      rewrite (Zsum_alter_same tx_count) by done. by rewrite Hadj.
    + unfold Nx.has_edge in He. simpl in He.
      rewrite (Zsum_set_new tx_count) by done. by rewrite Hadj.
  - unfold sum_tx_in.
    transitivity (Zsum ((λ kv, tx_in kv.2) <$> Nx._node G2) + 1).
    + destruct (Nx.has_edge _ f t); simpl;
        rewrite (Zsum_alter tx_in _ _ _ 1), !(Zsum_alter_same tx_in);
        rewrite ?has_alter; done.
    + unfold G2. by rewrite !(ensure_node_sum tx_in).
  - unfold sum_tx_out.
    transitivity (Zsum ((λ kv, tx_out kv.2) <$> Nx._node G2) + 1).
    + destruct (Nx.has_edge _ f t); simpl;
        rewrite !(Zsum_alter_same tx_out) by done;
        rewrite (Zsum_alter tx_out _ _ _ 1) by (rewrite ?has_alter; done);
        by rewrite !(Zsum_alter_same tx_out) by done.
    + unfold G2. by rewrite !(ensure_node_sum tx_out).
Qed.

(** Erasing the counters commutes with the graph operations. *)
Lemma erase_has_node (G : Graph) n :
  Nx.has_node (erase G) n = Nx.has_node G n.
Proof. apply has_fmap. Qed.

Lemma erase_has_edge (G : Graph) u v :
  Nx.has_edge (erase G) u v = Nx.has_edge G u v.
Proof. apply has_fmap. Qed.

Lemma erase_ensure_node (G : Graph) n :
  erase (ensure_node G n) = GraphBuilder.ensure_node (erase G) n.
Proof.
  unfold ensure_node, GraphBuilder.ensure_node. rewrite erase_has_node.
  destruct (Nx.has_node G n); [done|].
  unfold erase, Nx.add_node. simpl. f_equal. apply set_fmap.
Qed.

Lemma erase_update_node (G : Graph) n f f' :
  (∀ d, erase_node (f d) = f' (erase_node d)) →
  erase (Nx.update_node G n f) = Nx.update_node (erase G) n f'.
Proof.
  intros H. unfold erase, Nx.update_node. simpl. f_equal. by apply alter_fmap.
Qed.

Lemma erase_update_node_same (G : Graph) n f :
  (∀ d, erase_node (f d) = erase_node d) →
  erase (Nx.update_node G n f) = erase G.
Proof.
  intros H. unfold erase, Nx.update_node. simpl. f_equal.
  by apply alter_fmap_same.
Qed.

Lemma erase_update_edge (G : Graph) u v f f' :
  (∀ d, erase_edge (f d) = f' (erase_edge d)) →
  erase (Nx.update_edge G u v f) = Nx.update_edge (erase G) u v f'.
Proof.
  intros H. unfold erase, Nx.update_edge. simpl. f_equal. by apply alter_fmap.
Qed.

Lemma erase_update_edge_same (G : Graph) u v f :
  (∀ d, erase_edge (f d) = erase_edge d) →
  erase (Nx.update_edge G u v f) = erase G.
Proof.
  intros H. unfold erase, Nx.update_edge. simpl. f_equal.
  by apply alter_fmap_same.
Qed.

Lemma erase_add_edge (G : Graph) u v d :
  erase (Nx.add_edge G u v d) = Nx.add_edge (erase G) u v (erase_edge d).
Proof. unfold erase, Nx.add_edge. simpl. f_equal. apply set_fmap. Qed.

(** One iteration of the desktop loop, counters erased, is one iteration
    of the graph_builder loop, unless the record is below the threshold. *)
Lemma erase_step min (G : Graph) tx :
  erase (step min G tx) =
    if (amount tx <? min)%float then erase G
    else GraphBuilder.step (erase G) tx.
Proof.
  unfold step, GraphBuilder.step. fold (amount tx).
  fold (GraphBuilder.amount tx). rewrite <- NonnegFacts.amount_desktop.
  destruct (falsy (tx_from tx) || falsy (tx_to tx)) eqn:Hf;
    [by destruct (amount tx <? min)%float|].
  destruct (amount tx <? min)%float; [done|].
  destruct (tx_from tx) as [f|], (tx_to tx) as [t|]; try done.
  unfold GraphBuilder.add_transfer.
  rewrite <- !erase_ensure_node.
  set (G2 := ensure_node (ensure_node G f) t).
  set (a := amount tx).
  set (G4 := Nx.update_node (Nx.update_node (Nx.update_node
               (Nx.update_node G2 f _) f _) t _) t _).
  pose (fo := λ d : GraphBuilder.node_attr,
    {| GraphBuilder.total_in := GraphBuilder.total_in d;
       GraphBuilder.total_out := (GraphBuilder.total_out d + a)%float |}).
  pose (fi := λ d : GraphBuilder.node_attr,
    {| GraphBuilder.total_in := (GraphBuilder.total_in d + a)%float;
       GraphBuilder.total_out := GraphBuilder.total_out d |}).
  pose (fe := λ d : GraphBuilder.edge_attr,
    {| GraphBuilder.total_value := (GraphBuilder.total_value d + a)%float |}).
  assert (E4 : erase G4 =
    Nx.update_node (Nx.update_node (erase G2) f fo) t fi).
  { unfold G4. rewrite erase_update_node_same by done.
    rewrite (erase_update_node _ _ _ fi) by done.
    rewrite erase_update_node_same by done.
    by rewrite (erase_update_node _ _ _ fo) by done. }
  fold fo fi fe. rewrite <- E4, erase_has_edge.
  destruct (Nx.has_edge G4 f t).
  - rewrite erase_update_edge_same by done.
    by rewrite (erase_update_edge _ _ _ _ fe) by done.
  - by rewrite erase_add_edge.
Qed.

(** Not below the threshold and not NaN is at least zero, for the
    threshold [0.0]. *)
Lemma not_below_zero (x : float) :
  (x <? 0)%float = false → (x =? x)%float = true → (0 <=? x)%float = true.
Proof.
  rewrite FloatAxioms.ltb_spec, FloatAxioms.eqb_spec, FloatAxioms.leb_spec.
  change (Prim2SF 0) with (S754_zero false).
  destruct (Prim2SF x) as [[]|[]| |[] m e]; simpl; try done.
  all: unfold SFeqb, SFltb, SFcompare; simpl; try done.
  all: rewrite ?Z.compare_refl, ?Pos.compare_cont_refl; done.
Qed.
End DesktopExtraFacts.

Section DesktopExtras.
Import Py DesktopApp DesktopFacts DesktopExtraFacts Builders.
#[local] Open Scope string_scope.
#[local] Open Scope Z_scope.

(** X7.  Every record the desktop builder keeps is counted exactly once
    in the [tx_count] of an edge, once in the [tx_out] of a node and once in
    the [tx_in] of a node: the three column sums equal the number of kept
    records. *)
Theorem desktop_counters_conserved (txs : list Tx) (min_value_eth : float) :
  let G := build_graph_from_txlist txs min_value_eth in
  let k := Z.of_nat (length (filter (λ tx, kept min_value_eth tx = true) txs)) in
  sum_tx_count G = k ∧ sum_tx_in G = k ∧ sum_tx_out G = k.
Proof.
  cbv zeta. induction txs as [|tx txs IH] using rev_ind; [done|].
  rewrite build_app, filter_app, length_app, filter_cons, filter_nil. simpl.
  destruct IH as (IH1 & IH2 & IH3).
  destruct (kept min_value_eth tx) eqn:Hk.
  - rewrite decide_True by done.
    destruct (kept_step_counts min_value_eth
                (build_graph_from_txlist txs min_value_eth) tx Hk)
      as (-> & -> & ->).
    simpl. lia.
  - rewrite decide_False by done. rewrite kept_false_step by done.
    simpl. lia.
Qed.

(** X8.  Without its counters, the graph of the desktop builder is the
    graph that graph_builder.py aggregates from the records that are not
    below the threshold, in the same order: same nodes, same edges, same
    totals. *)
Theorem desktop_builder_refines_graph_builder
    (txs : list Tx) (min_value_eth : float) :
  erase (build_graph_from_txlist txs min_value_eth)
  = GraphBuilder.aggregate
      (filter (λ tx, (amount tx <? min_value_eth)%float = false) txs).
Proof.
  unfold build_graph_from_txlist, GraphBuilder.aggregate.
  change (@Nx.empty GraphBuilder.node_attr GraphBuilder.edge_attr)
    with (erase Nx.empty).
  generalize (@Nx.empty node_attr edge_attr).
  induction txs as [|tx txs IH]; intros G; [done|].
  rewrite filter_cons. simpl. rewrite IH, erase_step.
  destruct (amount tx <? min_value_eth)%float.
  - by rewrite decide_False.
  - by rewrite decide_True.
Qed.

(** X9.  With the default threshold [0.0] the desktop builder skips the
    records of negative amount: when no converted amount is NaN, every
    total of the graph is at least zero and every edge has a [tx_count] of
    at least one. *)
Theorem desktop_default_threshold_nonneg (txs : list Tx) :
  Forall (λ tx, (amount tx =? amount tx)%float = true) txs →
  totals_nonneg (build_graph_from_txlist txs 0).
Proof.
  induction txs as [|tx txs IH] using rev_ind; intros H.
  - split; constructor.
  - apply Forall_app in H as [H1 H2]. apply Forall_cons in H2 as [H2 _].
    rewrite build_app. simpl.
    destruct (amount tx <? 0)%float eqn:Hb.
    + rewrite step_below_threshold by done. auto.
    + apply desktop_step_nonneg; [by apply not_below_zero | auto].
Qed.

Lemma desktop_default_threshold_nonneg_witness :
  totals_nonneg
    (build_graph_from_txlist (GraphBuilder.minus_one :: GraphBuilder.drizzle) 0).
Proof.
  apply (desktop_default_threshold_nonneg
           (GraphBuilder.minus_one :: GraphBuilder.drizzle)).
  repeat constructor.
Defined.

End DesktopExtras.

(** ** Sign of converted amounts *)

Module AmountFacts.
Import Py DesktopApp FloatFacts.

Lemma binary_round_nonneg prec emax m e :
  sf_nonneg (binary_round prec emax false m e) = true.
Proof.
  unfold binary_round. destruct (shl_align m e _) as [mz ez].
  by apply binary_round_aux_nonneg.
Qed.

Lemma SFldexp_nonneg prec emax x e :
  sf_nonneg x = true → sf_nonneg (SFldexp prec emax x e) = true.
Proof.
  destruct x as [| | |[] m ex]; simpl; try done. intros _.
  apply binary_round_nonneg.
Qed.

(** Packing a number that is at least zero gives a float that is. *)
Lemma SF2Prim_nonneg s :
  sf_nonneg s = true → sf_nonneg (Prim2SF (SF2Prim s)) = true.
Proof.
  destruct s as [[]|[]| |[] m e]; simpl; try done. intros _.
  rewrite Z_ldexp_spec, of_uint63_spec.
  apply SFldexp_nonneg, binary_normalize_nonneg.
  apply Uint63.to_Z_bounded.
Qed.

Lemma leb_zero_nonneg (x : float) :
  (0 <=? x)%float = sf_nonneg (Prim2SF x).
Proof.
  rewrite FloatAxioms.leb_spec. change (Prim2SF 0) with (S754_zero false).
  apply SFleb_zero_nonneg.
Qed.

(** Dividing a float that is at least zero by [1e18] gives one that is. *)
Lemma div_1e18_nonneg (x : float) :
  sf_nonneg (Prim2SF x) = true → sf_nonneg (Prim2SF (x / 1e18)) = true.
Proof.
  rewrite div_spec.
  change (Prim2SF 1e18) with (S754_finite false 7812500000000000 7).
  destruct (Prim2SF x) as [[]|[]| |[] m e]; simpl; try done. intros _.
  unfold SF64div, SFdiv, SFdiv_core_binary.
  set (m' := match _ - _ with Z0 => _ | Zpos _ => _ | Zneg _ => _ end).
  assert (Hm' : 0 ≤ m').
  { unfold m'. destruct (_ - _); [lia| |lia]. apply Z.shiftl_nonneg. lia. }
  pose proof (Z_div_mod m' (Zpos 7812500000000000) eq_refl) as Hdiv.
  destruct (Z.div_eucl m' _) as [q r]. simpl.
  apply binary_round_aux_nonneg. destruct Hdiv as [Hq Hr]. nia.
Qed.

Lemma float_of_int_nonneg n x :
  0 ≤ n → float_of_int n = Ok x → sf_nonneg (Prim2SF x) = true.
Proof.
  intros Hn. unfold float_of_int.
  pose proof (binary_normalize_nonneg prec emax n 0 Hn) as Hs.
  destruct (binary_normalize prec emax n 0 false) as [[]|[]| |[] m e];
    try done; intros [= <-]; exact (SF2Prim_nonneg _ Hs).
Qed.

(** The three ways [wei_to_eth] returns. *)
Lemma wei_to_eth_cases (value : Py.value) :
  wei_to_eth value =
    match builtin_int value, builtin_float value with
    | Ok n, fl =>
        match float_of_int n, fl with
        | Ok x, _ => (x / 1e18)%float
        | Raise _, Ok f => (f / 1e18)%float
        | Raise _, Raise _ => 0%float
        end
    | Raise _, Ok f => (f / 1e18)%float
    | Raise _, Raise _ => 0%float
    end.
Proof.
  unfold wei_to_eth, try_return, int_truediv_float, float_truediv, bind.
  change (1e18 =? 0)%float with false.
  destruct (builtin_int value) as [n|e]; [destruct (float_of_int n)|];
    destruct (builtin_float value); reflexivity.
Qed.

Lemma span_digits_head l d ds r :
  span_digits l = (d :: ds, r) → ∃ l', l = d :: l' ∧ is_digit d = true.
Proof.
  destruct l as [|c l']; simpl; [done|].
  destruct (is_digit c) eqn:Hc; [|done].
  intros H. assert (c = d) as ->; [|by exists l'].
  clear Hc. destruct l' as [|u [|d' l'']]; revert H; simpl;
    repeat case_match; congruence.
Qed.

Lemma lower_digit c : is_digit c = true → lower_char c = c.
Proof.
  unfold lower_char, is_upper, is_digit.
  intros [H1%N.leb_le H2%N.leb_le]%andb_true_iff.
  by rewrite (proj2 (N.leb_gt _ _)) by lia.
Qed.

Lemma round_ratio_nonneg p q : sf_nonneg (Prim2SF (round_ratio false p q)) = true.
Proof.
  unfold round_ratio. apply SF2Prim_nonneg, binary_normalize_nonneg.
  set (sh := Z.max 0 _).
  assert (0 ≤ Z.shiftl (Zpos p) sh) by (apply Z.shiftl_nonneg; lia).
  assert (0 ≤ Z.shiftl (Zpos p) sh / Zpos q) by (apply Z.div_pos; lia).
  destruct (_ =? 0); lia.
Qed.

Lemma float_of_decimal_nonneg (neg : bool) m e10 :
  0 ≤ (if neg then - m else m) →
  sf_nonneg (Prim2SF (float_of_decimal neg m e10)) = true.
Proof.
  unfold float_of_decimal. destruct m as [|p|p].
  - by destruct neg.
  - destruct neg; [lia|]. intros _.
    destruct (0 <=? e10); apply round_ratio_nonneg.
  - by destruct neg.
Qed.

(** A string that [int()] reads as a number at least zero is read by
    [float()] as a float at least zero. *)
Lemma float_of_string_of_natural s n :
  int_of_string s = Ok n → 0 ≤ n →
  ∃ y, float_of_string s = Ok y ∧ sf_nonneg (Prim2SF y) = true.
Proof.
  unfold int_of_string, float_of_string.
  destruct (split_sign _) as [neg body].
  destruct (span_digits body) as [ds r] eqn:Hsp.
  destruct ds as [|d ds]; [done|]. destruct r; [|done].
  intros [= <-] Hn.
  destruct (span_digits_head _ _ _ _ Hsp) as (l' & -> & Hd).
  assert (Hw : ∀ c w, lower (string_of_list_ascii (d :: l')) = String c w →
                      is_digit c = true).
  { intros c w. simpl. rewrite (lower_digit _ Hd). by intros [= <- _]. }
  rewrite !bool_decide_eq_false_2;
    try (intros E; by apply Hw in E).
  rewrite app_nil_r.
  exists (float_of_decimal neg (digits_to_Z (d :: ds)) 0).
  split; [reflexivity | by apply float_of_decimal_nonneg].
Qed.
(** The converter on a value that [int()] reads as a number at least
    zero. *)
Lemma wei_to_eth_of_natural (value : Py.value) (n : Z) :
  builtin_int value = Ok n → 0 ≤ n →
  sf_nonneg (Prim2SF (wei_to_eth value)) = true.
Proof.
  intros Hi Hn. rewrite wei_to_eth_cases, Hi.
  destruct (float_of_int n) as [x|e] eqn:Hfo.
  { apply div_1e18_nonneg. by apply (float_of_int_nonneg n). }
  destruct value as [|b|k|f|s|]; simpl in Hi; try done.
  - destruct b; injection Hi as <-; by vm_compute in Hfo.
  - injection Hi as ->. simpl. by rewrite Hfo.
  - simpl. apply div_1e18_nonneg. unfold int_of_float in Hi.
    destruct (Prim2SF f) as [[]|[]| |[] m ex]; try done.
    injection Hi as <-.
    assert (0 ≤ if 0 <=? ex then Z.shiftl (Z.pos m) ex
                else Z.shiftr (Z.pos m) (- ex)) as Hmag.
    { destruct (0 <=? ex);
        [apply Z.shiftl_nonneg | apply Z.shiftr_nonneg]; lia. }
    replace (- (if 0 <=? ex then Z.shiftl (Z.pos m) ex
                else Z.shiftr (Z.pos m) (- ex))) with 0 in Hfo by lia.
    by vm_compute in Hfo.
  - simpl. destruct (float_of_string_of_natural s n Hi Hn) as (y & -> & Hy).
    by apply div_1e18_nonneg.
Qed.
End AmountFacts.

Section AmountExtras.
Import Py DesktopApp FloatFacts AmountFacts.
#[local] Open Scope string_scope.
#[local] Open Scope Z_scope.

(** X10.  Whenever [int()] reads the value as a number at least zero (an
    integer, a decimal string, a boolean, a float without negative integer
    part), [wei_to_eth] returns a float at least zero: never a negative
    number and never NaN. *)
Theorem wei_to_eth_nonneg_of_natural (value : Py.value) (n : Z) :
  builtin_int value = Ok n → 0 ≤ n → (0 <=? wei_to_eth value)%float = true.
Proof.
  intros Hi Hn. rewrite leb_zero_nonneg.
  exact (wei_to_eth_of_natural value n Hi Hn).
Qed.

Lemma wei_to_eth_nonneg_of_natural_witness :
  (0 <=? wei_to_eth (PyStr "1000000000000000000"))%float = true.
Proof.
  apply (wei_to_eth_nonneg_of_natural (PyStr "1000000000000000000") (10 ^ 18));
    [by vm_compute | lia].
Defined.

(** X11.  For records whose values [int()] reads as numbers at least zero
    (base-unit amounts as the ledger service returns them, a missing value
    counting as zero), every total of the graph is at least zero, in both
    builders, whatever the focus, the budget and the threshold. *)
Theorem totals_nonneg_for_natural_values
    (txs : list Tx) (focus_addr : option string) (m : Z)
    (min_value_eth : float) :
  Forall (λ tx, ∃ n, builtin_int (default (PyStr "0") (tx_value tx)) = Ok n
                     ∧ 0 ≤ n) txs →
  GraphBuilder.totals_nonneg
    (GraphBuilder.build_graph_from_txlist txs focus_addr m)
  ∧ totals_nonneg (build_graph_from_txlist txs min_value_eth).
Proof.
  intros H.
  assert (Ha : Forall (λ tx, (0 <=? GraphBuilder.amount tx)%float = true) txs).
  { eapply Forall_impl; [exact H|]. intros tx (n & Hi & Hn).
    rewrite leb_zero_nonneg. by apply (wei_to_eth_of_natural _ n). }
  split.
  - by apply NonnegFacts.bound_nonneg, NonnegFacts.aggregate_nonneg.
  - apply DesktopFacts.build_nonneg.
    eapply Forall_impl; [exact Ha|]. intros tx.
    by rewrite NonnegFacts.amount_desktop.
Qed.

Lemma totals_nonneg_for_natural_values_witness :
  GraphBuilder.totals_nonneg
    (GraphBuilder.build_graph_from_txlist GraphBuilder.star_lower (Some "x") 3)
  ∧ totals_nonneg (build_graph_from_txlist GraphBuilder.star_lower 0).
Proof.
  apply (totals_nonneg_for_natural_values GraphBuilder.star_lower (Some "x") 3 0).
  repeat constructor; exists 1; by vm_compute.
Defined.

End AmountExtras.

(** ** The node entries of graph_visualizer.py *)

Module VisualizerFacts.
Import Py GraphBuilder Visualizer DictFacts TransferFacts AggregateFacts
  TrimFacts GraphExtraFacts.

Lemma lower_char_idemp c : lower_char (lower_char c) = lower_char c.
Proof. by destruct c as [[] [] [] [] [] [] [] []]. Qed.

Lemma lower_idemp s : lower (lower s) = lower s.
Proof. induction s as [|c s IH]; simpl; [done|]. by rewrite lower_char_idemp, IH. Qed.

Lemma ensure_node_zero (G : Graph) n :
  totals_zero G → totals_zero (ensure_node G n).
Proof.
  unfold ensure_node, totals_zero. destruct (Nx.has_node G n); [done|].
  intros H. simpl. by apply Forall_set.
Qed.

Lemma add_transfer_zero (G : Graph) f t :
  totals_zero G → totals_zero (add_transfer G f t 0).
Proof.
  intros HG. unfold totals_zero. rewrite add_transfer_node.
  repeat (apply Forall_alter;
          [intros k [i o] [Hi Ho]; simpl in *; by subst|]).
  by apply ensure_node_zero, ensure_node_zero.
Qed.

Lemma aggregate_zero txs :
  Forall (λ tx, amount tx = 0%float) txs → totals_zero (aggregate txs).
Proof.
  induction txs as [|tx txs IH] using rev_ind; intros H.
  - constructor.
  - apply Forall_app in H as [H1 H2]. apply Forall_cons in H2 as [H2 _].
    rewrite aggregate_snoc, step_transfer.
    destruct (transfer_of tx) as [[[f t] a]|] eqn:E; [|auto].
    apply NonnegFacts.transfer_of_amount in E as ->. rewrite H2.
    apply add_transfer_zero; auto.
Qed.

Lemma bound_zero (G : Graph) fo m : totals_zero G → totals_zero (bound G fo m).
Proof.
  intros HG. destruct (trim_active G fo m) eqn:Ha.
  - rewrite (bound_active _ _ _ Ha). cbv zeta.
    by apply NonnegFacts.Forall_keep.
  - by rewrite (bound_inactive _ _ _ Ha).
Qed.

Lemma py_max_zeros (l : list float) d :
  l ≠ [] → Forall (λ x, x = 0%float) l → py_max l d = 0%float.
Proof.
  destruct l as [|x l]; [done|]. intros _ H.
  apply Forall_cons in H as [-> H]. simpl.
  induction H as [|y l -> _ IH]; [done|]. simpl. exact IH.
Qed.

Lemma max_volume_zero (G : Graph) :
  Nx._node G ≠ [] → totals_zero G → max_volume G = 0%float.
Proof.
  intros Hne HG. unfold max_volume. apply py_max_zeros.
  - by destruct (Nx._node G).
  - apply Forall_fmap. eapply Forall_impl; [exact HG|].
    intros [n [i o]] [Hi Ho]. simpl in *. by subst.
Qed.

(** The graph the builder returns has a node as soon as one record names
    both addresses. *)
Lemma aggregate_nonempty txs :
  transfers txs ≠ [] → Nx._node (aggregate txs) ≠ [].
Proof.
  intros Hts.
  destruct (transfers txs) as [|[[f t] a] ts] eqn:E; [done|].
  assert (Hf : Nx.has_node (aggregate txs) f = true).
  { apply has_node_aggregate, elem_of_endpoints. exists (f, t, a).
    rewrite E. split; [left|auto]. }
  unfold Nx.has_node in Hf. by destruct (Nx._node (aggregate txs)).
Qed.

Lemma build_nonempty txs fo m :
  transfers txs ≠ [] → Nx._node (build_graph_from_txlist txs fo m) ≠ [].
Proof.
  intros Hts. unfold build_graph_from_txlist.
  pose proof (aggregate_nonempty txs Hts) as Hagg.
  destruct (trim_active (aggregate txs) fo m) eqn:Ha;
    [|by rewrite (bound_inactive _ _ _ Ha)].
  pose proof (proj1 (trim_active_true _ _ _) Ha) as (_ & _ & Hx).
  set (x := lower (default ""%string fo)) in *.
  assert (Hx' : Nx.has_node (bound (aggregate txs) fo m) x = true).
  { rewrite (bound_active _ _ _ Ha). cbv zeta. fold x.
    apply has_node_subgraph. split; [|done].
    apply elem_of_list_to_set. left. }
  unfold Nx.has_node in Hx'. by destruct (Nx._node (bound (aggregate txs) fo m)).
Qed.

(** A loop that ends normally has produced one entry per element. *)
Lemma for_each_ok {A B} (body : A → result B) l bs a :
  for_each body l = Ok bs → a ∈ l → ∃ b, b ∈ bs ∧ body a = Ok b.
Proof.
  revert bs. induction l as [|a0 l IH]; intros bs H Ha.
  - by apply elem_of_nil in Ha.
  - simpl in H. destruct (body a0) as [b0|] eqn:E0; [|done]. simpl in H.
    destruct (for_each body l) as [bs'|]; [|done]. simpl in H.
    injection H as <-.
    apply elem_of_cons in Ha as [->|Ha].
    + exists b0. split; [left|done].
    + destruct (IH bs' eq_refl Ha) as (b & Hb & Eb).
      exists b. split; [by right|done].
Qed.

Lemma for_each_ok_inv {A B} (body : A → result B) l bs b :
  for_each body l = Ok bs → b ∈ bs → ∃ a, a ∈ l ∧ body a = Ok b.
Proof.
  revert bs. induction l as [|a0 l IH]; intros bs H Hb.
  - injection H as <-. by apply elem_of_nil in Hb.
  - simpl in H. destruct (body a0) as [b0|] eqn:E0; [|done]. simpl in H.
    destruct (for_each body l) as [bs'|]; [|done]. simpl in H.
    injection H as <-.
    apply elem_of_cons in Hb as [->|Hb].
    + exists a0. split; [left|done].
    + destruct (IH bs' eq_refl Hb) as (a & Ha & Ea).
      exists a. split; [by right|done].
Qed.

Lemma node_entry_of_ok focus mv n d e :
  node_entry_of focus mv (n, d) = Ok e →
  n_id e = n
  ∧ n_color e = if is_focus focus n then Some "#ffcc00"%string else None.
Proof.
  unfold node_entry_of, float_truediv, bind.
  destruct (mv =? 0)%float; [done|]. by intros [= <-].
Qed.

(** One entry per element, in order. *)
Lemma for_each_entries focus mv (l : list (string * node_attr)) es :
  for_each (node_entry_of focus mv) l = Ok es →
  n_id <$> es = l.*1
  ∧ Forall (λ e, n_label e = if (14 <? String.length (n_id e))%nat
                             then (str_take 10 (n_id e) +:+ "...")%string
                             else n_id e) es.
Proof.
  revert es. induction l as [|[n d] l IH]; intros es H.
  - injection H as <-. by split.
  - cbn [for_each] in H.
    destruct (node_entry_of focus mv (n, d)) as [e|] eqn:Ee; [|done].
    cbn [bind] in H.
    destruct (for_each _ l) as [es'|]; [|done]. cbn [bind] in H.
    injection H as <-. destruct (IH es' eq_refl) as [IH1 IH2].
    unfold node_entry_of, float_truediv, bind in Ee.
    destruct (mv =? 0)%float; [done|]. injection Ee as <-.
    split; [by rewrite fmap_cons, IH1 | by constructor].
Qed.

Lemma length_string_of_list_ascii l :
  String.length (string_of_list_ascii l) = length l.
Proof. induction l as [|a l IH]; simpl; [done | by rewrite IH]. Qed.

Lemma length_append s1 s2 :
  String.length (s1 +:+ s2) = (String.length s1 + String.length s2)%nat.
Proof. induction s1 as [|a s1 IH]; simpl; [done | by rewrite IH]. Qed.

Lemma length_str_take k s : (String.length (str_take k s) ≤ k)%nat.
Proof.
  unfold str_take. rewrite length_string_of_list_ascii, length_take. lia.
Qed.

Lemma get_elem_of {K V} `{EqDecision K} (d : Dict.t K V) k v :
  Dict.get d k = Some v → (k, v) ∈ d.
Proof.
  induction d as [|[k0 v0] d IH]; simpl; [done|].
  case_decide; [intros [= ->]; subst; left | intros Hd; right; auto].
Qed.
End VisualizerFacts.

Section VisualizerExtras.
Import Py GraphBuilder Visualizer VisualizerFacts TrimFacts GraphExtraFacts.
#[local] Open Scope string_scope.
#[local] Open Scope Z_scope.

(** X12.  When every record carries the amount [0.0] and at least one
    names both addresses, drawing the built graph fails: every volume is
    zero, so is their maximum, and the first node's size divides by it. *)
Theorem visualizer_divides_by_zero
    (txs : list Tx) (focus_addr : option string) (m : Z)
    (focus_node : option string) :
  transfers txs ≠ [] → Forall (λ tx, amount tx = 0%float) txs →
  pyvis_nodes (build_graph_from_txlist txs focus_addr m) focus_node
  = Raise ZeroDivisionError.
Proof.
  intros Hts Hz.
  pose proof (build_nonempty txs focus_addr m Hts) as Hne.
  assert (HG : totals_zero (build_graph_from_txlist txs focus_addr m))
    by by apply bound_zero, aggregate_zero.
  unfold pyvis_nodes. rewrite (max_volume_zero _ Hne HG).
  destruct (Nx._node _) as [|[n d] l]; [done|]. simpl.
  unfold float_truediv. by change (0 =? 0)%float with true.
Qed.

Lemma visualizer_divides_by_zero_witness :
  pyvis_nodes (build_graph_from_txlist [transfer "a" "b" "0"] None 300) None
  = Raise ZeroDivisionError.
Proof.
  apply (visualizer_divides_by_zero [transfer "a" "b" "0"] None 300 None).
  - by vm_compute.
  - repeat constructor.
Defined.

(** X13.  Builder and visualizer agree on the focus: when the builder has
    trimmed around a focus and the node entries are produced for the same
    focus, the entry of the lower-cased focus is among them and carries the
    highlight colour, and an entry is highlighted exactly when its id
    equals the focus up to letter case. *)
Theorem trimmed_focus_is_highlighted
    (txs : list Tx) (f : string) (m : Z) (entries : list node_entry) :
  m < Nx.number_of_nodes (aggregate txs) → f ≠ "" →
  Nx.has_node (aggregate txs) (lower f) = true →
  pyvis_nodes (build_graph_from_txlist txs (Some f) m) (Some f) = Ok entries →
  (∃ e, e ∈ entries ∧ n_id e = lower f ∧ n_color e = Some "#ffcc00")
  ∧ (∀ e, e ∈ entries →
          (n_color e = Some "#ffcc00" ↔ lower (n_id e) = lower f)).
Proof.
  intros Hover Hf Hx Hok.
  assert (Hfocus : ∀ n, is_focus (Some f) n = bool_decide (lower n = lower f)).
  { intros n. unfold is_focus, falsy. simpl.
    by rewrite bool_decide_eq_false_2. }
  split.
  - assert (Hin : ∃ d, (lower f, d) ∈
                         Nx._node (build_graph_from_txlist txs (Some f) m)).
    { assert (Ha : trim_active (aggregate txs) (Some f) m = true).
      { apply trim_active_true. split_and!; [done| |done].
        by apply bool_decide_eq_false_2. }
      destruct (proj1 (TransferFacts.has_node_attr _ _) Hx) as [d Hd].
      exists d. apply get_elem_of. unfold build_graph_from_txlist.
      rewrite (bound_active _ _ _ Ha). cbv zeta. simpl default.
      fold (Nx.node_attr
              (Nx.subgraph_copy (aggregate txs)
                 (list_to_set
                    (lower f :: slice_to
                       (Nx.predecessors (aggregate txs) (lower f) ++
                        Nx.successors (aggregate txs) (lower f)) (m - 1))))
              (lower f)).
      rewrite node_attr_subgraph, decide_True; [done|].
      apply elem_of_list_to_set. left. }
    destruct Hin as [d Hin].
    destruct (for_each_ok _ _ _ _ Hok Hin) as (e & He & Ee).
    apply node_entry_of_ok in Ee as [Hid Hc].
    exists e. split_and!; [done..|].
    by rewrite Hc, Hfocus, lower_idemp, bool_decide_eq_true_2.
  - intros e He.
    destruct (for_each_ok_inv _ _ _ _ Hok He) as ([n d] & _ & Ee).
    apply node_entry_of_ok in Ee as [-> ->]. rewrite Hfocus.
    case_bool_decide; split; try done.
Qed.

Lemma trimmed_focus_is_highlighted_witness :
  ∃ entries e,
    pyvis_nodes (build_graph_from_txlist star_lower (Some "X") 3) (Some "X")
    = Ok entries
    ∧ e ∈ entries ∧ n_id e = "x" ∧ n_color e = Some "#ffcc00".
Proof.
  destruct (pyvis_nodes (build_graph_from_txlist star_lower (Some "X") 3)
              (Some "X")) as [entries|err] eqn:E; [|by vm_compute in E].
  destruct (trimmed_focus_is_highlighted star_lower "X" 3 entries)
    as [(e & He & Hid & Hc) _]; [by vm_compute | done | by vm_compute | done |].
  exists entries, e. split; [reflexivity|]. split; [exact He|].
  split; [exact Hid | exact Hc].
Defined.

(** X14.  When the node loop ends normally it has produced one entry per
    node of the graph, in node order, each under the node's own key; a
    label is the key itself when the key has at most 14 characters and its
    first ten characters followed by three dots otherwise, so no label is
    longer than 14 characters. *)
Theorem entries_follow_nodes
    (G : Graph) (focus_node : option string) (entries : list node_entry) :
  pyvis_nodes G focus_node = Ok entries →
  n_id <$> entries = Dict.keys (Nx._node G)
  ∧ Forall (λ e, (String.length (n_label e) ≤ 14)%nat
                 ∧ (n_label e = n_id e
                    ∨ (14 < String.length (n_id e))%nat
                      ∧ n_label e = str_take 10 (n_id e) +:+ "...")) entries.
Proof.
  intros [Hids Hl]%for_each_entries. split; [done|].
  eapply Forall_impl; [exact Hl|]. intros e ->.
  destruct (14 <? String.length (n_id e))%nat eqn:Hlen.
  - apply Nat.ltb_lt in Hlen. split; [|by right].
    rewrite length_append. pose proof (length_str_take 10 (n_id e)).
    simpl. lia.
  - apply Nat.ltb_ge in Hlen. split; [done | by left].
Qed.

Lemma entries_follow_nodes_witness :
  ∃ entries,
    pyvis_nodes (aggregate star_lower) None = Ok entries
    ∧ n_id <$> entries = Dict.keys (Nx._node (aggregate star_lower)).
Proof.
  destruct (pyvis_nodes (aggregate star_lower) None) as [entries|err] eqn:E;
    [|by vm_compute in E].
  exists entries. split; [reflexivity|].
  exact (proj1 (entries_follow_nodes (aggregate star_lower) None entries E)).
Defined.

End VisualizerExtras.

(** ** The node sizes of desktop_app.py *)

Module DrawFacts.
Import Py DesktopApp DesktopDraw DesktopFacts DesktopExtraFacts Builders
  VisualizerFacts.

Lemma build_all_below txs min :
  Forall (λ tx, (amount tx <? min)%float = true) txs →
  build_graph_from_txlist txs min = Nx.empty.
Proof.
  induction txs as [|tx txs IH] using rev_ind; intros H; [done|].
  apply Forall_app in H as [H1 H2]. apply Forall_cons in H2 as [H2 _].
  rewrite build_app. simpl. rewrite step_below_threshold by done. auto.
Qed.

Lemma erase_build_kept txs min :
  Forall (λ tx, (amount tx <? min)%float = false) txs →
  erase (build_graph_from_txlist txs min) = GraphBuilder.aggregate txs.
Proof.
  induction txs as [|tx txs IH] using rev_ind; intros H; [done|].
  apply Forall_app in H as [H1 H2]. apply Forall_cons in H2 as [H2 _].
  rewrite build_app, AggregateFacts.aggregate_snoc. simpl.
  by rewrite erase_step, H2, IH.
Qed.

Lemma vols_erase (G : Graph) :
  vols G = (λ kv, Visualizer.volume kv.2) <$> Nx._node (erase G).
Proof.
  unfold vols, erase. simpl. rewrite <- list_fmap_compose.
  apply list_fmap_ext. by intros ? [n d].
Qed.
End DrawFacts.

Section DrawExtras.
Import Py DesktopApp DesktopDraw DrawFacts VisualizerFacts Builders.
#[local] Open Scope string_scope.
#[local] Open Scope Z_scope.

(** X15.  For records that all carry the amount [0.0], one of them naming
    both addresses, drawing the graph of the desktop builder depends on
    the threshold: above zero every record is skipped and there is nothing
    to draw; otherwise the graph has nodes, every volume is zero, and the
    first size divides by the zero maximum. *)
Theorem desktop_draw_of_zero_amounts (txs : list Tx) (min_value_eth : float) :
  GraphBuilder.transfers txs ≠ [] →
  Forall (λ tx, amount tx = 0%float) txs →
  node_sizes (build_graph_from_txlist txs min_value_eth)
  = if (0 <? min_value_eth)%float then Ok None
    else Raise ZeroDivisionError.
Proof.
  intros Hts Hz. destruct (0 <? min_value_eth)%float eqn:Hmin.
  - rewrite build_all_below; [done|].
    eapply Forall_impl; [exact Hz|]. by intros tx ->.
  - assert (He : erase (build_graph_from_txlist txs min_value_eth)
                 = GraphBuilder.aggregate txs).
    { apply erase_build_kept. eapply Forall_impl; [exact Hz|].
      by intros tx ->. }
    assert (Hz' : Forall (λ tx, GraphBuilder.amount tx = 0%float) txs).
    { eapply Forall_impl; [exact Hz|]. intros tx Htx. simpl in Htx.
      by rewrite <- NonnegFacts.amount_desktop. }
    pose proof (aggregate_nonempty txs Hts) as Hne.
    pose proof (aggregate_zero txs Hz') as Hzero.
    unfold node_sizes. rewrite vols_erase, He.
    fold (Visualizer.max_volume (GraphBuilder.aggregate txs)).
    rewrite (max_volume_zero _ Hne Hzero).
    assert (Hn : (Nx.number_of_nodes
                    (build_graph_from_txlist txs min_value_eth) =? 0) = false).
    { apply Z.eqb_neq. unfold Nx.number_of_nodes.
      rewrite <- (length_fmap (prod_map id erase_node)).
      change (prod_map id erase_node <$> Nx._node ?G) with (Nx._node (erase G)).
      rewrite He. destruct (Nx._node (GraphBuilder.aggregate txs)); [done|].
      simpl. lia. }
    rewrite Hn.
    destruct (Nx._node (GraphBuilder.aggregate txs)) as [|[n d] l]; [done|].
    simpl. unfold float_truediv. by change (0 =? 0)%float with true.
Qed.

Lemma desktop_draw_of_zero_amounts_witness :
  node_sizes (build_graph_from_txlist [transfer "a" "b" "0"] 0)
  = Raise ZeroDivisionError
  ∧ node_sizes (build_graph_from_txlist [transfer "a" "b" "0"] 0.5)
    = Ok None.
Proof.
  split.
  - apply (desktop_draw_of_zero_amounts [transfer "a" "b" "0"] 0);
      [by vm_compute | repeat constructor].
  - apply (desktop_draw_of_zero_amounts [transfer "a" "b" "0"] 0.5);
      [by vm_compute | repeat constructor].
Defined.

End DrawExtras.
